(** * Soundboard: the compressor settings, the processed-sound caches and
    the playback orchestration

    A shallow embedding of [audio_models.py], [audio_cache.py],
    [audio_processing.py] and of the compressor part of [soundboard.py],
    followed by the properties of the design document that are about them.

    Conventions.
    - A Python [float] is an IEEE 754 binary64 value, modelled by Stdlib's
      [spec_float] at precision 53 and maximal exponent 1024; a numpy
      [float32] is [spec_float] at precision 24 and maximal exponent 128.
      The operations ([SFadd], [SFmul], [SFdiv], [SFcompare]) are the ones
      of [Floats.SpecFloat], which round to nearest, ties to even.
      The gain computer calls [math.exp], [math.log10] and [**], which
      IEEE 754 does not define: in [Binary64] their results are
      parameters and everything else is binary64; the same formulas are
      also read over the reals, for what holds in exact arithmetic.
    - A Python [int] is a [Z].
    - A [str] is a [string]; [encode("utf-8")] is the identity on its bytes.
    - An exception is a value of [exn]; a call that may raise returns a
      [result].
    - A [dict] read by key is a [gmap]; an [OrderedDict] is an association
      list in insertion order, least recently used entry first. *)

From Stdlib Require Import ZArith List String Ascii Bool Lia Reals Lra.
From Stdlib Require Import Floats.SpecFloat.
From stdpp Require Import base gmap list strings pretty finite.

Set Warnings "-register-all".
Local Open Scope string_scope.
Local Open Scope list_scope.
Local Open Scope Z_scope.

(** ** Python values and exceptions *)

Module Py.

Inductive exn : Type :=
  | ValueError
  | OverflowError
  | TypeError
  | KeyError
  | ZeroDivisionError
  | MemoryError
  | OSError
  | PygameError
  | WaveError
  | AttributeError
  | UnicodeDecodeError
  | JSONDecodeError.

Inductive result (A : Type) : Type :=
  | Ok (a : A)
  | Raise (e : exn).
Arguments Ok {A} a.
Arguments Raise {A} e.

Definition bind {A B : Type} (r : result A) (k : A → result B) : result B :=
  match r with
  | Ok a => k a
  | Raise e => Raise e
  end.

Notation "'let?' x := r 'in' k" := (bind r (fun x => k))
  (at level 10, x name, r at level 100, k at level 200).

(** The values [json.load] can put in a settings dictionary. *)
Inductive pyval : Type :=
  | PNone
  | PBool (b : bool)
  | PInt (z : Z)
  | PFloat (f : spec_float)
  | PStr (s : string)
  | PList (l : list pyval)
  | PDict (d : list (string * pyval)).

(** The values for which [isinstance(value, (int, float))] holds; [bool] is
    a subclass of [int]. *)
Inductive pynum : Type :=
  | NBool (b : bool)
  | NInt (z : Z)
  | NFloat (f : spec_float).

Definition prec64 : Z := 53.
Definition emax64 : Z := 1024.

(** The binary64 value nearest to an integer (ties to even); an infinity
    when the integer is out of range. *)
Definition f64_of_Z (z : Z) : spec_float := binary_normalize prec64 emax64 z 0 false.

(** [float(x)] for a number: an [int] too large for a binary64 raises
    [OverflowError]. *)
Definition py_float (x : pynum) : result spec_float :=
  match x with
  | NBool b => Ok (f64_of_Z (if b then 1 else 0))
  | NInt z =>
      match f64_of_Z z with
      | S754_infinity _ => Raise OverflowError
      | f => Ok f
      end
  | NFloat f => Ok f
  end.

(** [int(x)] for a number: truncation toward zero; a NaN raises
    [ValueError], an infinity [OverflowError]. *)
Definition py_int (x : pynum) : result Z :=
  match x with
  | NBool b => Ok (if b then 1 else 0)
  | NInt z => Ok z
  | NFloat S754_nan => Raise ValueError
  | NFloat (S754_infinity _) => Raise OverflowError
  | NFloat (S754_zero _) => Ok 0
  | NFloat (S754_finite s m e) =>
      let a := Z.shiftl (Z.pos m) e in
      Ok (if s then - a else a)
  end.

(** [bool(x)]: the truth value of a Python object. *)
Definition py_bool (v : pyval) : bool :=
  match v with
  | PNone => false
  | PBool b => b
  | PInt z => negb (z =? 0)%Z
  | PFloat (S754_zero _) => false
  | PFloat _ => true
  | PStr s => negb (String.eqb s "")
  | PList l => match l with [] => false | _ => true end
  | PDict d => match d with [] => false | _ => true end
  end.

(** [max(a, b)] of two floats: [b] when [b > a], else [a]; so a NaN second
    argument yields [a]. *)
Definition py_max_float (a b : spec_float) : spec_float :=
  if SFltb a b then b else a.

(** [max(a, b)] of two ints. *)
Definition py_max_int (a b : Z) : Z := if (a <? b)%Z then b else a.

(** [a <= b] and [a >= b] on floats (false on a NaN). *)
Definition py_le (a b : spec_float) : bool := SFleb a b.
Definition py_ge (a b : spec_float) : bool := SFleb b a.

End Py.
Export Py.

(** ** audio_models.py *)

Module AudioModels.

(** The dataclass; its float fields are over a carrier [F], which is
    binary64 wherever floats are stored, compared, converted and printed,
    and the reals where the gain computer is read in exact arithmetic
    (see [AudioProcessing]). *)
Record CompressorSettings (F : Type) : Type := mkCompressorSettings {
  enabled : bool;
  input_gain_db : F;
  threshold_db : F;
  ratio : F;
  attack_ms : F;
  release_ms : F;
  makeup_gain_db : F;
  output_ceiling_db : F;
  cache_max_items : Z;
  revision : Z
}.
Arguments mkCompressorSettings {F}.
Arguments enabled {F}.
Arguments input_gain_db {F}.
Arguments threshold_db {F}.
Arguments ratio {F}.
Arguments attack_ms {F}.
Arguments release_ms {F}.
Arguments makeup_gain_db {F}.
Arguments output_ceiling_db {F}.
Arguments cache_max_items {F}.
Arguments revision {F}.

Definition DEFAULT_COMPRESSOR_SETTINGS : CompressorSettings spec_float :=
  {| enabled := true;
     input_gain_db := f64_of_Z 0;
     threshold_db := f64_of_Z (-18);
     ratio := f64_of_Z 4;
     attack_ms := f64_of_Z 10;
     release_ms := f64_of_Z 120;
     makeup_gain_db := f64_of_Z 0;
     output_ceiling_db := f64_of_Z (-1);
     cache_max_items := 32;
     revision := 0 |}.

(** [_num(value, fallback)]: the value when it is an [int] or a [float],
    the fallback otherwise. [value] is [data.get(key)], which is [None] for
    a missing key. *)
Definition _num (value : option pyval) (fallback : pynum) : pynum :=
  match value with
  | Some (PBool b) => NBool b
  | Some (PInt z) => NInt z
  | Some (PFloat f) => NFloat f
  | _ => fallback
  end.

(** [data.get(key, default)]. *)
Definition dict_get_default (data : gmap string pyval) (key : string) (d : pyval) : pyval :=
  match data !! key with
  | Some v => v
  | None => d
  end.

Definition compressor_settings_from_dict (data : gmap string pyval)
  : result (CompressorSettings spec_float) :=
  let settings := DEFAULT_COMPRESSOR_SETTINGS in
  let v_enabled := py_bool (dict_get_default data "compressor_enabled" (PBool (enabled settings))) in
  let? v_input_gain_db :=
    py_float (_num (data !! "compressor_input_gain_db") (NFloat (input_gain_db settings))) in
  let? v_threshold_db :=
    py_float (_num (data !! "compressor_threshold_db") (NFloat (threshold_db settings))) in
  let? v_ratio :=
    py_float (_num (data !! "compressor_ratio") (NFloat (ratio settings))) in
  let v_ratio := py_max_float (f64_of_Z 1) v_ratio in
  let? v_attack_ms :=
    py_float (_num (data !! "compressor_attack_ms") (NFloat (attack_ms settings))) in
  let v_attack_ms := py_max_float (f64_of_Z 1) v_attack_ms in
  let? v_release_ms :=
    py_float (_num (data !! "compressor_release_ms") (NFloat (release_ms settings))) in
  let v_release_ms := py_max_float (f64_of_Z 1) v_release_ms in
  let? v_makeup_gain_db :=
    py_float (_num (data !! "compressor_makeup_gain_db") (NFloat (makeup_gain_db settings))) in
  let? v_output_ceiling_db :=
    py_float (_num (data !! "compressor_output_ceiling_db") (NFloat (output_ceiling_db settings))) in
  let? v_cache_max_items :=
    py_int (_num (data !! "compressor_cache_max_items") (NInt (cache_max_items settings))) in
  let v_cache_max_items := py_max_int 1 v_cache_max_items in
  let? v_revision :=
    py_int (_num (data !! "compressor_revision") (NInt (revision settings))) in
  let v_revision := py_max_int 0 v_revision in
  Ok {| enabled := v_enabled;
        input_gain_db := v_input_gain_db;
        threshold_db := v_threshold_db;
        ratio := v_ratio;
        attack_ms := v_attack_ms;
        release_ms := v_release_ms;
        makeup_gain_db := v_makeup_gain_db;
        output_ceiling_db := v_output_ceiling_db;
        cache_max_items := v_cache_max_items;
        revision := v_revision |}.

(** [bool(b)], [float(f)] and [int(z)] are the identity on a [bool], a
    [float] and an [int], which is what the annotated fields hold. *)
Definition compressor_settings_to_dict (settings : CompressorSettings spec_float)
  : gmap string pyval :=
  list_to_map
    [ ("compressor_enabled", PBool (enabled settings));
      ("compressor_input_gain_db", PFloat (input_gain_db settings));
      ("compressor_threshold_db", PFloat (threshold_db settings));
      ("compressor_ratio", PFloat (ratio settings));
      ("compressor_attack_ms", PFloat (attack_ms settings));
      ("compressor_release_ms", PFloat (release_ms settings));
      ("compressor_makeup_gain_db", PFloat (makeup_gain_db settings));
      ("compressor_output_ceiling_db", PFloat (output_ceiling_db settings));
      ("compressor_cache_max_items", PInt (cache_max_items settings));
      ("compressor_revision", PInt (revision settings)) ].

(** The invariants of the data model. *)
Definition settings_valid (s : CompressorSettings spec_float) : Prop :=
  py_ge (ratio s) (f64_of_Z 1) = true ∧
  py_ge (attack_ms s) (f64_of_Z 1) = true ∧
  py_ge (release_ms s) (f64_of_Z 1) = true ∧
  1 ≤ cache_max_items s.

End AudioModels.
Export AudioModels.

(** ** audio_cache.py *)

Module AudioCache.

Section OrderedDict.
Context {K V : Type} `{EqDecision K}.

(** An [OrderedDict]: the entries in insertion order, so the head is the
    one [popitem(last=False)] removes and the last the one
    [move_to_end] has just placed. *)
Definition odict : Type := list (K * V).

(** [d.get(key)]. *)
Fixpoint od_get (key : K) (d : odict) : option V :=
  match d with
  | [] => None
  | (k, v) :: rest => if decide (k = key) then Some v else od_get key rest
  end.

(** [d[key] = value]: an existing key keeps its place and takes the new
    value, a new key goes to the end. *)
Fixpoint od_setitem (key : K) (value : V) (d : odict) : odict :=
  match d with
  | [] => [(key, value)]
  | (k, v) :: rest =>
      if decide (k = key) then (k, value) :: rest
      else (k, v) :: od_setitem key value rest
  end.

(** The entries of [d] without the one of [key]. *)
Fixpoint od_remove (key : K) (d : odict) : odict :=
  match d with
  | [] => []
  | (k, v) :: rest =>
      if decide (k = key) then rest else (k, v) :: od_remove key rest
  end.

(** [d.move_to_end(key)]; [KeyError] when the key is missing. *)
Definition od_move_to_end (key : K) (d : odict) : result odict :=
  match od_get key d with
  | Some v => Ok (od_remove key d ++ [(key, v)])
  | None => Raise KeyError
  end.

(** [while len(d) > max_items: d.popitem(last=False)]; [popitem] raises
    [KeyError] on an empty dictionary. *)
Fixpoint evict (max_items : Z) (d : odict) : result odict :=
  if (Z.of_nat (length d) >? max_items)%Z then
    match d with
    | [] => Raise KeyError
    | _ :: rest => evict max_items rest
    end
  else Ok d.

Record ProcessedSoundCache : Type := mkCache {
  max_items : Z;
  _store : odict
}.

(** [ProcessedSoundCache(max_items)]; [max_items] is an [int] here, so
    [int(max_items)] is the identity. *)
Definition __init__ (n : Z) : ProcessedSoundCache :=
  {| max_items := py_max_int 1 n; _store := [] |}.

(** [get] returns the item and the cache it leaves behind. Sounds are
    objects, never [None], so [item is None] is the missing key. *)
Definition get (key : K) (self : ProcessedSoundCache)
  : result (option V * ProcessedSoundCache) :=
  match od_get key (_store self) with
  | None => Ok (None, self)
  | Some item =>
      let? d := od_move_to_end key (_store self) in
      Ok (Some item, {| max_items := max_items self; _store := d |})
  end.

Definition put (key : K) (sound : V) (self : ProcessedSoundCache)
  : result ProcessedSoundCache :=
  let d := od_setitem key sound (_store self) in
  let? d := od_move_to_end key d in
  let? d := evict (max_items self) d in
  Ok {| max_items := max_items self; _store := d |}.

Definition clear (self : ProcessedSoundCache) : ProcessedSoundCache :=
  {| max_items := max_items self; _store := [] |}.

Definition set_capacity (n : Z) (self : ProcessedSoundCache)
  : result ProcessedSoundCache :=
  let m := py_max_int 1 n in
  let? d := evict m (_store self) in
  Ok {| max_items := m; _store := d |}.

(** A run of [put]s, in order. *)
Fixpoint put_all (items : list (K * V)) (self : ProcessedSoundCache)
  : result ProcessedSoundCache :=
  match items with
  | [] => Ok self
  | (k, v) :: rest => let? c := put k v self in put_all rest c
  end.

(** The keys of the cache, least recently used first. *)
Definition keys (self : ProcessedSoundCache) : list K := (_store self).*1.

End OrderedDict.
Arguments odict : clear implicits.
Arguments ProcessedSoundCache : clear implicits.

End AudioCache.
Export AudioCache.

(** ** audio_processing.py *)

Module AudioProcessing.

(** *** The gain computer, in exact arithmetic

    The formulas of [_compressor_gain] read over the reals: what the loop
    would compute without rounding, infinities and NaN. The program itself
    runs in binary64; that computation is [Binary64._compressor_gain]
    below. *)
Section Gain.
Local Open Scope R_scope.

(** [self._eps = 1e-9]. *)
Definition _eps : R := / 1000000000.

(** [math.log10]. *)
Definition log10 (x : R) : R := ln x / ln 10.

(** [10.0 ** (float(db) / 20.0)]. *)
Definition _db_to_linear (db : R) : R := Rpower 10 (db / 20).

(** [max(a, b)] of two floats: [b] when [b > a], else [a]. *)
Definition py_max_R (a b : R) : R := if Rlt_dec a b then b else a.

(** [a / b]; Python raises on a zero divisor. *)
Definition py_div_R (a b : R) : result R :=
  if Req_dec_T b 0 then Raise ZeroDivisionError else Ok (a / b).

(** The body of [for i, peak in enumerate(level)], from the envelope
    before the frame to the envelope after it and the frame's gain.
    [gain[i]] keeps the 1 of [np.ones] on [continue]. [ratio] is at least
    1 here, so [over_db / ratio] divides by a non-zero number. *)
Definition gain_frame (attack_coeff release_coeff threshold ratio : R)
    (env peak : R) : R * R :=
  let coeff := if Rlt_dec env peak then attack_coeff else release_coeff in
  let env := (coeff * env) + ((1 - coeff) * peak) in
  let env_db := 20 * log10 (py_max_R env _eps) in
  if Rle_dec env_db threshold then (env, 1)
  else
    let over_db := env_db - threshold in
    let compressed_db := threshold + (over_db / ratio) in
    let reduction_db := compressed_db - env_db in
    (env, _db_to_linear reduction_db).

Fixpoint gain_loop (attack_coeff release_coeff threshold ratio : R)
    (env : R) (level : list R) : list R :=
  match level with
  | [] => []
  | peak :: rest =>
      let '(env', g) := gain_frame attack_coeff release_coeff threshold ratio env peak in
      g :: gain_loop attack_coeff release_coeff threshold ratio env' rest
  end.

Definition _compressor_gain (level : list R) (sample_rate : Z)
    (settings : CompressorSettings R) : result (list R) :=
  let attack_s := py_max_R (1 / 1000) (attack_ms settings / 1000) in
  let release_s := py_max_R (1 / 1000) (release_ms settings / 1000) in
  let? a := py_div_R (- 1) (attack_s * IZR sample_rate) in
  let attack_coeff := exp a in
  let? r := py_div_R (- 1) (release_s * IZR sample_rate) in
  let release_coeff := exp r in
  let threshold := threshold_db settings in
  let ratio := py_max_R 1 (ratio settings) in
  let env := 0 in
  Ok (gain_loop attack_coeff release_coeff threshold ratio env level).


End Gain.

(** *** Sample conversion, in binary32 *)

Definition prec32 : Z := 24.
Definition emax32 : Z := 128.

Definition f32_of_Z (z : Z) : spec_float := binary_normalize prec32 emax32 z 0 false.

(** A Python [float] operand of a [float32] array operation is taken at
    [float32]. *)
Definition f32_of_f64 (f : spec_float) : spec_float :=
  match f with
  | S754_finite s m e => binary_round prec32 emax32 s m e
  | _ => f
  end.

Definition f32_add : spec_float → spec_float → spec_float := SFadd prec32 emax32.
Definition f32_sub : spec_float → spec_float → spec_float := SFsub prec32 emax32.
Definition f32_mul : spec_float → spec_float → spec_float := SFmul prec32 emax32.
Definition f32_div : spec_float → spec_float → spec_float := SFdiv prec32 emax32.

(** The integer sample formats of a mixer: [kind] is ["u"] or ["i"], with
    the width in bits. *)
Inductive int_dtype : Type :=
  | UInt (bits : Z)
  | SInt (bits : Z).

Inductive dtype : Type :=
  | DInt (d : int_dtype)
  | DFloat32.

(** [np.iinfo(dtype).max] and [np.iinfo(dtype).min]. *)
Definition iinfo_max (d : int_dtype) : Z :=
  match d with
  | UInt bits => 2 ^ bits - 1
  | SInt bits => 2 ^ (bits - 1) - 1
  end.

Definition iinfo_min (d : int_dtype) : Z :=
  match d with
  | UInt bits => 0
  | SInt bits => - 2 ^ (bits - 1)
  end.

(** What [pygame.sndarray.array(sound)] gives and [make_sound] takes: the
    samples with their dtype. The conversions are elementwise, so the
    shape (mono or frames of channels) plays no role and the samples are
    listed flat. *)
Inductive ndarray : Type :=
  | IntArray (d : int_dtype) (a : list Z)
  | Float32Array (a : list spec_float).

Definition Sound : Type := ndarray.

(** [np.clip(x, lo, hi)] on one element; a NaN passes through. *)
Definition np_clip (lo hi x : spec_float) : spec_float :=
  if SFltb x lo then lo else if SFltb hi x then hi else x.

(** [astype] from [float32] to an integer type truncates toward zero; C
    leaves the result undefined for a NaN, an infinity and a value out of
    the target's range, which is [None] here. *)
Definition astype_int (d : int_dtype) (x : spec_float) : option Z :=
  match py_int (NFloat x) with
  | Ok z => if (iinfo_min d <=? z) && (z <=? iinfo_max d) then Some z else None
  | Raise _ => None
  end.

(** The two integer branches of [_sound_to_float] on one sample: numpy
    applies the expression to every element of the array.
    [(arr.astype(np.float32) / max_int) * 2.0 - 1.0] and
    [arr.astype(np.float32) / max_abs]. *)
Definition unsigned_to_float (bits : Z) (x : Z) : spec_float :=
  let max_int := f64_of_Z (iinfo_max (UInt bits)) in
  f32_sub (f32_mul (f32_div (f32_of_Z x) (f32_of_f64 max_int)) (f32_of_f64 (f64_of_Z 2)))
          (f32_of_f64 (f64_of_Z 1)).

Definition signed_to_float (bits : Z) (x : Z) : spec_float :=
  let max_abs :=
    f64_of_Z (py_max_int (Z.abs (iinfo_min (SInt bits))) (iinfo_max (SInt bits))) in
  f32_div (f32_of_Z x) (f32_of_f64 max_abs).

Definition _sound_to_float (sound : Sound) : list spec_float * dtype :=
  match sound with
  | IntArray (UInt bits) arr => (map (unsigned_to_float bits) arr, DInt (UInt bits))
  | IntArray (SInt bits) arr => (map (signed_to_float bits) arr, DInt (SInt bits))
  | Float32Array arr => (arr, DFloat32)
  end.

(** [0.5] as a binary64. *)
Definition f64_half : spec_float := S754_finite false 4503599627370496 (-53).

(** [np.clip(data, -1.0, 1.0)] on one element. *)
Definition clip_unit (x : spec_float) : spec_float :=
  np_clip (f32_of_f64 (SFopp (f64_of_Z 1))) (f32_of_f64 (f64_of_Z 1)) x.

(** The two integer branches of [_float_to_sound] on one sample:
    [((np.clip(data, -1.0, 1.0) + 1.0) * 0.5 * max_int).astype(dtype)] and
    [(np.clip(data, -1.0, 1.0) * max_int).astype(dtype)]. *)
Definition float_to_unsigned (bits : Z) (x : spec_float) : option Z :=
  let max_int := f64_of_Z (iinfo_max (UInt bits)) in
  astype_int (UInt bits)
    (f32_mul (f32_mul (f32_add (clip_unit x) (f32_of_f64 (f64_of_Z 1))) (f32_of_f64 f64_half))
             (f32_of_f64 max_int)).

Definition float_to_signed (bits : Z) (x : spec_float) : option Z :=
  let max_int := f64_of_Z (iinfo_max (SInt bits)) in
  astype_int (SInt bits) (f32_mul (clip_unit x) (f32_of_f64 max_int)).

Definition _float_to_sound (data : list spec_float) (original_dtype : dtype)
  : option Sound :=
  match original_dtype with
  | DInt (UInt bits) =>
      scaled ← mapM (float_to_unsigned bits) data;
      Some (IntArray (UInt bits) scaled)
  | DInt (SInt bits) =>
      scaled ← mapM (float_to_signed bits) data;
      Some (IntArray (SInt bits) scaled)
  | DFloat32 => Some (Float32Array (map clip_unit data))
  end.

(** Normalising a sound and converting it straight back. *)
Definition sound_roundtrip (sound : Sound) : option Sound :=
  let '(data, original_dtype) := _sound_to_float sound in
  _float_to_sound data original_dtype.

(** *** The gain computer, in binary64

    [_compressor_gain] as the program runs it: Python floats are binary64,
    the peaks are the [float32] elements of [level], and [gain] is a
    [float32] array. *)
Module Binary64.

(** The literals [1e-9] and [0.001]: the binary64 nearest to the decimal,
    which is the correctly rounded quotient of the two integers. *)
Definition f64_quotient (a b : Z) : spec_float :=
  SFdiv prec64 emax64 (f64_of_Z a) (f64_of_Z b).

Definition _eps : spec_float := f64_quotient 1 1000000000.
Definition f64_milli : spec_float := f64_quotient 1 1000.

Definition f64_add : spec_float → spec_float → spec_float := SFadd prec64 emax64.
Definition f64_sub : spec_float → spec_float → spec_float := SFsub prec64 emax64.
Definition f64_mul : spec_float → spec_float → spec_float := SFmul prec64 emax64.
Definition f64_div : spec_float → spec_float → spec_float := SFdiv prec64 emax64.

(** [a / b] on two floats raises on a zero divisor, of either sign. Where
    the divisor is a non-zero literal the quotient is [f64_div] as it
    is. *)
Definition py_truediv (a b : spec_float) : result spec_float :=
  match b with
  | S754_zero _ => Raise ZeroDivisionError
  | _ => Ok (f64_div a b)
  end.

(** The three lines after [continue]:
    [over_db = env_db - threshold],
    [compressed_db = threshold + (over_db / ratio)],
    [reduction_db = compressed_db - env_db]. *)
Definition frame_reduction_db (threshold ratio env_db : spec_float) : result spec_float :=
  let over_db := f64_sub env_db threshold in
  let? quotient := py_truediv over_db ratio in
  let compressed_db := f64_add threshold quotient in
  Ok (f64_sub compressed_db env_db).

Section Math.

(** [math.exp], [math.log10] and [float ** float] end in the C library,
    which IEEE 754 does not pin down: what each call returns, or raises,
    is a parameter. *)
Variable math_exp : spec_float → result spec_float.
Variable math_log10 : spec_float → result spec_float.
Variable float_pow : spec_float → spec_float → result spec_float.

(** [peak > env] compares a [float32] scalar with a Python float: numpy
    from version 2 on (NEP 50) takes the Python float to [float32] first,
    earlier versions compare the two at binary64. *)
Variable nep50 : bool.

Definition peak_gt (peak env : spec_float) : bool :=
  if nep50 then SFltb (f32_of_f64 env) peak else SFltb env peak.

(** [10.0 ** (float(db) / 20.0)]. *)
Definition _db_to_linear (db : spec_float) : result spec_float :=
  float_pow (f64_of_Z 10) (f64_div db (f64_of_Z 20)).

(** The body of the loop: from the envelope before the frame to the
    envelope after it and the element of [gain], which [np.ones] set to 1
    and an assignment rounds to [float32]. *)
Definition gain_frame (attack_coeff release_coeff threshold ratio : spec_float)
    (env peak : spec_float) : result (spec_float * spec_float) :=
  let coeff := if peak_gt peak env then attack_coeff else release_coeff in
  let env := f64_add (f64_mul coeff env) (f64_mul (f64_sub (f64_of_Z 1) coeff) peak) in
  let? l := math_log10 (py_max_float env _eps) in
  let env_db := f64_mul (f64_of_Z 20) l in
  if py_le env_db threshold then Ok (env, f32_of_Z 1)
  else
    let? reduction_db := frame_reduction_db threshold ratio env_db in
    let? g := _db_to_linear reduction_db in
    Ok (env, f32_of_f64 g).

Fixpoint gain_loop (attack_coeff release_coeff threshold ratio : spec_float)
    (env : spec_float) (level : list spec_float) : result (list spec_float) :=
  match level with
  | [] => Ok []
  | peak :: rest =>
      let? frame := gain_frame attack_coeff release_coeff threshold ratio env peak in
      let? gs := gain_loop attack_coeff release_coeff threshold ratio frame.1 rest in
      Ok (frame.2 :: gs)
  end.

(** [float * int] converts the [int] first. *)
Definition _compressor_gain (level : list spec_float) (sample_rate : Z)
    (settings : CompressorSettings spec_float) : result (list spec_float) :=
  let attack_s := py_max_float f64_milli (f64_div (attack_ms settings) (f64_of_Z 1000)) in
  let release_s := py_max_float f64_milli (f64_div (release_ms settings) (f64_of_Z 1000)) in
  let? rate := py_float (NInt sample_rate) in
  let? a := py_truediv (f64_of_Z (-1)) (f64_mul attack_s rate) in
  let? attack_coeff := math_exp a in
  let? rate := py_float (NInt sample_rate) in
  let? r := py_truediv (f64_of_Z (-1)) (f64_mul release_s rate) in
  let? release_coeff := math_exp r in
  let threshold := threshold_db settings in
  let ratio := py_max_float (f64_of_Z 1) (ratio settings) in
  let env := S754_zero false in
  gain_loop attack_coeff release_coeff threshold ratio env level.





End Math.

End Binary64.

End AudioProcessing.
Export AudioProcessing.

(** ** hashlib.sha1

    The digest of FIPS 180-4 on the bytes of a string, as
    [hashlib.sha1(b).hexdigest()] prints it. *)

Module Sha1.

Definition add32 (a b : Z) : Z := (a + b) mod 2 ^ 32.

Definition rotl32 (n x : Z) : Z :=
  (Z.lor (Z.shiftl x n) (Z.shiftr x (32 - n))) mod 2 ^ 32.

Definition not32 (x : Z) : Z := Z.lxor x 4294967295.

Definition bytes_of_string (s : string) : list Z :=
  map (fun c => Z.of_N (N_of_ascii c)) (list_ascii_of_string s).

(** [n] as [len] bytes, most significant first. *)
Fixpoint be_bytes (len : nat) (n : Z) : list Z :=
  match len with
  | O => []
  | S k => ((n / 256 ^ Z.of_nat k) mod 256) :: be_bytes k n
  end.

(** The message, the byte [0x80], zeros up to 56 modulo 64, and the length
    in bits on 8 bytes. *)
Definition pad (msg : list Z) : list Z :=
  let len := Z.of_nat (length msg) in
  msg ++ [128] ++ repeat 0 (Z.to_nat ((55 - len) mod 64)) ++ be_bytes 8 (8 * len).

Fixpoint words_of_bytes (bs : list Z) : list Z :=
  match bs with
  | b0 :: b1 :: b2 :: b3 :: rest =>
      (((b0 * 256 + b1) * 256 + b2) * 256 + b3) :: words_of_bytes rest
  | _ => []
  end.

(** The blocks of 16 words; [fuel] bounds their number. *)
Fixpoint blocks_of_words (fuel : nat) (ws : list Z) : list (list Z) :=
  match fuel, ws with
  | S k, _ :: _ => take 16 ws :: blocks_of_words k (drop 16 ws)
  | _, _ => []
  end.

(** The message schedule, newest word first: [n] more words on the 16 of
    the block. *)
Fixpoint schedule (n : nat) (rev_ws : list Z) : list Z :=
  match n with
  | O => rev_ws
  | S k =>
      let w := rotl32 1 (Z.lxor (Z.lxor (Z.lxor (nth 2 rev_ws 0) (nth 7 rev_ws 0))
                                        (nth 13 rev_ws 0)) (nth 15 rev_ws 0)) in
      schedule k (w :: rev_ws)
  end.

Definition state : Type := (Z * Z * Z * Z * Z)%type.

Definition round (t : Z) (w : Z) (st : state) : state :=
  let '(a, b, c, d, e) := st in
  let '(f, k) :=
    if t <? 20 then (Z.lor (Z.land b c) (Z.land (not32 b) d), 1518500249)
    else if t <? 40 then (Z.lxor (Z.lxor b c) d, 1859775393)
    else if t <? 60 then
      (Z.lor (Z.lor (Z.land b c) (Z.land b d)) (Z.land c d), 2400959708)
    else (Z.lxor (Z.lxor b c) d, 3395469782) in
  let temp := add32 (add32 (add32 (add32 (rotl32 5 a) f) e) k) w in
  (temp, a, rotl32 30 b, c, d).

Fixpoint rounds (t : Z) (ws : list Z) (st : state) : state :=
  match ws with
  | [] => st
  | w :: rest => rounds (t + 1) rest (round t w st)
  end.

Definition compress (h : state) (block : list Z) : state :=
  let ws := rev (schedule 64 (rev block)) in
  let '(h0, h1, h2, h3, h4) := h in
  let '(a, b, c, d, e) := rounds 0 ws h in
  (add32 h0 a, add32 h1 b, add32 h2 c, add32 h3 d, add32 h4 e).

Definition initial : state :=
  (1732584193, 4023233417, 2562383102, 271733878, 3285377520).

Definition digest (s : string) : state :=
  let ws := words_of_bytes (pad (bytes_of_string s)) in
  fold_left compress (blocks_of_words (length ws) ws) initial.

Definition hex_digit (n : Z) : ascii :=
  match n with
  | 0 => "0" | 1 => "1" | 2 => "2" | 3 => "3" | 4 => "4" | 5 => "5"
  | 6 => "6" | 7 => "7" | 8 => "8" | 9 => "9" | 10 => "a" | 11 => "b"
  | 12 => "c" | 13 => "d" | 14 => "e" | _ => "f"
  end%char.

(** A word as 8 hexadecimal digits. *)
Fixpoint hex_go (len : nat) (n : Z) : string :=
  match len with
  | O => ""
  | S k => String (hex_digit ((n / 16 ^ Z.of_nat k) mod 16)) (hex_go k n)
  end.

Definition hex_of_state (st : state) : string :=
  let '(h0, h1, h2, h3, h4) := st in
  hex_go 8 h0 +:+ hex_go 8 h1 +:+ hex_go 8 h2 +:+ hex_go 8 h3 +:+ hex_go 8 h4.

Definition hexdigest (s : string) : string := hex_of_state (digest s).

End Sha1.

(** ** soundboard.py: settings signature, disk cache, settings mutation *)

Module SoundItem.
Record t : Type := mk {
  key : string;
  display_name : string;
  sound : Sound;
  file : string;
  length : spec_float;
  group : option string
}.
End SoundItem.

Module Soundboard.

(** *** Strings *)

Definition starts_with (p s : string) : bool := String.prefix p s.

Definition ends_with (suffix s : string) : bool :=
  String.prefix (String.rev suffix) (String.rev s).

Definition lower_ascii (c : ascii) : ascii :=
  let n := N_of_ascii c in
  if ((65 <=? n) && (n <=? 90))%N then ascii_of_N (n + 32) else c.

(** [s.lower()], on ASCII letters. *)
Fixpoint lower (s : string) : string :=
  match s with
  | EmptyString => EmptyString
  | String c rest => String (lower_ascii c) (lower rest)
  end.

(** [sep.join(parts)]. *)
Fixpoint join (sep : string) (parts : list string) : string :=
  match parts with
  | [] => ""
  | [x] => x
  | x :: rest => x +:+ sep +:+ join sep rest
  end.

(** [os.path.join(a, b)] of [posixpath]. *)
Definition path_join (a b : string) : string :=
  if starts_with "/" b then b
  else if String.eqb a "" || ends_with "/" a then a +:+ b
  else a +:+ "/" +:+ b.

(** [str(n)] for an [int]. *)
Definition str_int (n : Z) : string := pretty n.

(** The nearest integer to [n / d], ties to even, for [d > 0]. *)
Definition round_half_even (n d : Z) : Z :=
  let q := n / d in
  let r := n mod d in
  if (2 * r >? d) || ((2 * r =? d) && Z.odd q) then q + 1 else q.

Definition three_digits (n : Z) : string :=
  str_int (n / 100 mod 10) +:+ str_int (n / 10 mod 10) +:+ str_int (n mod 10).

(** [f"{x:.3f}"] for a float: the exact value of [x], rounded to the
    nearest multiple of 1/1000 (ties to even), with its sign. *)
Definition format_3f (x : spec_float) : string :=
  match x with
  | S754_nan => "nan"
  | S754_infinity s => if s then "-inf" else "inf"
  | S754_zero s => if s then "-0.000" else "0.000"
  | S754_finite s m e =>
      let n := if 0 <=? e then Z.pos m * 1000 * 2 ^ e
               else round_half_even (Z.pos m * 1000) (2 ^ (- e)) in
      (if s then "-" else "") +:+ str_int (n / 1000) +:+ "." +:+ three_digits (n mod 1000)
  end.

(** *** The window and the world around it *)

(** A line on the console: [print(s)], or [log_error(context, error)]
    (which prints too). *)
Inductive message : Type :=
  | Printed (s : string)
  | Logged (context : string) (e : exn).

(** A file of the cache directory: what [pygame.mixer.Sound(path)] decodes
    from it ([None]: [pygame.error]) and whether [os.remove] fails on it. *)
Record CacheFile : Type := mkCacheFile {
  wav : option Sound;
  locked : bool
}.

(** What [_save_cached_sound_to_disk] meets when it writes a cache file: it
    reads the samples with [pygame.sndarray.array], opens the file with
    [wave.open] and writes the frames.
    [Written decodes_to]: the file is written, and [decodes_to s] is what
    [pygame.mixer.Sound] later decodes from the file written for the sound
    [s] (a WAV file holds unsigned 8-bit and signed 16-bit samples as they
    are; other mixer formats come back changed).
    [FailsBeforeOpen e]: [e] is raised before the file is opened, and the
    files are as they were.
    [FailsAfterOpen e behind]: [e] is raised after [wave.open] created or
    truncated the file, which stays as [behind]. *)
Inductive write_outcome : Type :=
  | Written (decodes_to : Sound → option Sound)
  | FailsBeforeOpen (e : exn)
  | FailsAfterOpen (e : exn) (behind : CacheFile).

Record World : Type := mkWorld {
  (** [os.stat(path)]: [st_mtime_ns] and [st_size]; a missing entry is an
      [OSError]. *)
  stat_table : gmap string (Z * Z);
  (** The files of the cache directory, by full path. *)
  cache_files : gmap string CacheFile;
  (** [os.listdir] of the cache directory raises [OSError]. *)
  listdir_fails : bool;
  (** What writing a cache file comes to. *)
  wave_write : write_outcome;
  (** [open(settings_path, "w")] raises [OSError]. *)
  settings_open_fails : bool;
  settings_file : option (gmap string pyval);
  console : list message;
  (** The sounds the mixer is playing. *)
  playing : list Sound
}.

Record Window : Type := mkWindow {
  compressor_settings : CompressorSettings spec_float;
  processed_cache : ProcessedSoundCache (string * string) Sound;
  _compressor_updating_ui : bool;
  sound_index : gmap string SoundItem.t;
  opt_overlap : bool;
  opt_smart_mute : bool;
  geometry_b64 : string;
  processed_cache_dir : string;
  world : World
}.

Definition set_settings (s : CompressorSettings spec_float) (self : Window) : Window :=
  mkWindow s (processed_cache self) (_compressor_updating_ui self) (sound_index self)
    (opt_overlap self) (opt_smart_mute self) (geometry_b64 self)
    (processed_cache_dir self) (world self).

Definition set_cache (c : ProcessedSoundCache (string * string) Sound) (self : Window)
  : Window :=
  mkWindow (compressor_settings self) c (_compressor_updating_ui self) (sound_index self)
    (opt_overlap self) (opt_smart_mute self) (geometry_b64 self)
    (processed_cache_dir self) (world self).

Definition set_world (w : World) (self : Window) : Window :=
  mkWindow (compressor_settings self) (processed_cache self) (_compressor_updating_ui self)
    (sound_index self) (opt_overlap self) (opt_smart_mute self) (geometry_b64 self)
    (processed_cache_dir self) w.

Definition set_cache_files (fs : gmap string CacheFile) (w : World) : World :=
  mkWorld (stat_table w) fs (listdir_fails w) (wave_write w) (settings_open_fails w)
    (settings_file w) (console w) (playing w).

Definition set_settings_file (d : option (gmap string pyval)) (w : World) : World :=
  mkWorld (stat_table w) (cache_files w) (listdir_fails w) (wave_write w)
    (settings_open_fails w) d (console w) (playing w).

Definition set_console (c : list message) (w : World) : World :=
  mkWorld (stat_table w) (cache_files w) (listdir_fails w) (wave_write w)
    (settings_open_fails w) (settings_file w) c (playing w).

Definition set_playing (p : list Sound) (w : World) : World :=
  mkWorld (stat_table w) (cache_files w) (listdir_fails w) (wave_write w)
    (settings_open_fails w) (settings_file w) (console w) p.

Definition print (s : string) (self : Window) : Window :=
  set_world (set_console (console (world self) ++ [Printed s]) (world self)) self.

Definition log_error (context : string) (error : exn) (self : Window) : Window :=
  set_world (set_console (console (world self) ++ [Logged context error]) (world self)) self.

(** *** The operating system *)

(** [os.stat(path)]. *)
Definition os_stat (path : string) (w : World) : result (Z * Z) :=
  match stat_table w !! path with
  | Some st => Ok st
  | None => Raise OSError
  end.

Definition os_path_isfile (path : string) (w : World) : bool :=
  bool_decide (is_Some (cache_files w !! path)).

(** What a directory path is followed by in the paths below it. *)
Definition dir_prefix (dir : string) : string :=
  if String.eqb dir "" || ends_with "/" dir then dir else dir +:+ "/".

(** [Some rest] when [s] is [p] followed by [rest]. *)
Fixpoint strip_prefix (p s : string) : option string :=
  match p, s with
  | EmptyString, _ => Some s
  | String a p', String b s' => if Ascii.eqb a b then strip_prefix p' s' else None
  | String _ _, EmptyString => None
  end.

Fixpoint has_slash (s : string) : bool :=
  match s with
  | EmptyString => false
  | String c rest => Ascii.eqb c "/" || has_slash rest
  end.

(** The name of [path] in directory [dir], when it is directly in it. *)
Definition entry_name (dir path : string) : option string :=
  match strip_prefix (dir_prefix dir) path with
  | Some name => if String.eqb name "" || has_slash name then None else Some name
  | None => None
  end.

(** [os.listdir(dir)] for the cache directory. *)
Definition os_listdir (dir : string) (w : World) : result (list string) :=
  if listdir_fails w then Raise OSError
  else Ok (omap (fun kv => entry_name dir kv.1) (map_to_list (cache_files w))).

(** [os.remove(path)]. *)
Definition os_remove (path : string) (w : World) : result World :=
  match cache_files w !! path with
  | Some f => if locked f then Raise OSError
              else Ok (set_cache_files (delete path (cache_files w)) w)
  | None => Raise OSError
  end.

(** *** The compressor methods of [SoundboardWindow] *)

Definition _clear_processed_cache (increment_revision : bool) (self : Window) : Window :=
  let s := compressor_settings self in
  let self :=
    if increment_revision then
      set_settings
        (mkCompressorSettings (enabled s) (input_gain_db s) (threshold_db s) (ratio s)
           (attack_ms s) (release_ms s) (makeup_gain_db s) (output_ceiling_db s)
           (cache_max_items s) (revision s + 1)) self
    else self in
  set_cache (clear (processed_cache self)) self.

Definition _compressor_signature (self : Window) : string :=
  join "|"
    [ "ig=" +:+ format_3f (input_gain_db (compressor_settings self));
      "th=" +:+ format_3f (threshold_db (compressor_settings self));
      "ra=" +:+ format_3f (ratio (compressor_settings self));
      "at=" +:+ format_3f (attack_ms (compressor_settings self));
      "re=" +:+ format_3f (release_ms (compressor_settings self));
      "mk=" +:+ format_3f (makeup_gain_db (compressor_settings self));
      "ce=" +:+ format_3f (output_ceiling_db (compressor_settings self)) ].

Definition _disk_cache_filename (sound_data : SoundItem.t) (signature : string)
    (self : Window) : string :=
  let stamp :=
    match os_stat (SoundItem.file sound_data) (world self) with
    | Ok (st_mtime_ns, st_size) => str_int st_mtime_ns +:+ ":" +:+ str_int st_size
    | Raise _ => "0:0"
    end in
  let raw_key := SoundItem.file sound_data +:+ "|" +:+ stamp +:+ "|" +:+ signature in
  let digest := Sha1.hexdigest raw_key in
  path_join (processed_cache_dir self) (digest +:+ ".wav").

(** The body of the [for filename in os.listdir(...)] loop. *)
Definition remove_cache_file (self : Window) (filename : string) : Window :=
  if ends_with ".wav" (lower filename) then
    let full_path := path_join (processed_cache_dir self) filename in
    match os_remove full_path (world self) with
    | Ok w => set_world w self
    | Raise e => log_error ("Could not remove cache file " +:+ filename) e self
    end
  else self.

Definition _clear_disk_cache (self : Window) : Window :=
  match os_listdir (processed_cache_dir self) (world self) with
  | Ok names => fold_left remove_cache_file names self
  | Raise e => log_error "Could not clear disk cache folder" e self
  end.

Definition save_settings (self : Window) : Window :=
  let data : gmap string pyval :=
    list_to_map
      [ ("overlap_audio", PBool (opt_overlap self));
        ("smart_unmute_remute", PBool (opt_smart_mute self));
        ("window_geometry_b64", PStr (geometry_b64 self)) ] in
  let data := compressor_settings_to_dict (compressor_settings self) ∪ data in
  if settings_open_fails (world self) then
    log_error "Could not save settings file" OSError self
  else set_world (set_settings_file (Some data) (world self)) self.

Definition on_compressor_enabled_toggled (checked : bool) (self : Window) : Window :=
  if _compressor_updating_ui self then self
  else
    let s := compressor_settings self in
    let self :=
      set_settings
        (mkCompressorSettings checked (input_gain_db s) (threshold_db s) (ratio s)
           (attack_ms s) (release_ms s) (makeup_gain_db s) (output_ceiling_db s)
           (cache_max_items s) (revision s)) self in
    let self :=
      print ("Compressor " +:+
             (if enabled (compressor_settings self) then "enabled" else "disabled")) self in
    save_settings self.

(** The attributes the dials of [_build_compressor_panel] are wired to.
    No dial is wired to [cache_max_items], so the branch of
    [_set_compressor_attr] for it is never taken. *)
Inductive dial_attr : Type :=
  | a_input_gain_db
  | a_threshold_db
  | a_ratio
  | a_attack_ms
  | a_release_ms
  | a_makeup_gain_db
  | a_output_ceiling_db.

(** [setattr(settings, attr, value)]. *)
Definition setattr (s : CompressorSettings spec_float) (attr : dial_attr) (v : spec_float)
  : CompressorSettings spec_float :=
  match attr with
  | a_input_gain_db =>
      mkCompressorSettings (enabled s) v (threshold_db s) (ratio s) (attack_ms s)
        (release_ms s) (makeup_gain_db s) (output_ceiling_db s) (cache_max_items s) (revision s)
  | a_threshold_db =>
      mkCompressorSettings (enabled s) (input_gain_db s) v (ratio s) (attack_ms s)
        (release_ms s) (makeup_gain_db s) (output_ceiling_db s) (cache_max_items s) (revision s)
  | a_ratio =>
      mkCompressorSettings (enabled s) (input_gain_db s) (threshold_db s) v (attack_ms s)
        (release_ms s) (makeup_gain_db s) (output_ceiling_db s) (cache_max_items s) (revision s)
  | a_attack_ms =>
      mkCompressorSettings (enabled s) (input_gain_db s) (threshold_db s) (ratio s) v
        (release_ms s) (makeup_gain_db s) (output_ceiling_db s) (cache_max_items s) (revision s)
  | a_release_ms =>
      mkCompressorSettings (enabled s) (input_gain_db s) (threshold_db s) (ratio s)
        (attack_ms s) v (makeup_gain_db s) (output_ceiling_db s) (cache_max_items s) (revision s)
  | a_makeup_gain_db =>
      mkCompressorSettings (enabled s) (input_gain_db s) (threshold_db s) (ratio s)
        (attack_ms s) (release_ms s) v (output_ceiling_db s) (cache_max_items s) (revision s)
  | a_output_ceiling_db =>
      mkCompressorSettings (enabled s) (input_gain_db s) (threshold_db s) (ratio s)
        (attack_ms s) (release_ms s) (makeup_gain_db s) v (cache_max_items s) (revision s)
  end.

(** [getattr(settings, attr)]. *)
Definition getattr (s : CompressorSettings spec_float) (attr : dial_attr) : spec_float :=
  match attr with
  | a_input_gain_db => input_gain_db s
  | a_threshold_db => threshold_db s
  | a_ratio => ratio s
  | a_attack_ms => attack_ms s
  | a_release_ms => release_ms s
  | a_makeup_gain_db => makeup_gain_db s
  | a_output_ceiling_db => output_ceiling_db s
  end.

(** [value] is the [float] a dial emits, so [float(value)] is [value]. *)
Definition _set_compressor_attr (attr : dial_attr) (value : spec_float) (self : Window)
  : Window :=
  let self := set_settings (setattr (compressor_settings self) attr value) self in
  let self := _clear_processed_cache true self in
  let self := _clear_disk_cache self in
  save_settings self.

Definition on_compressor_dial_changed (attr : dial_attr) (value : spec_float)
    (self : Window) : Window :=
  if _compressor_updating_ui self then self
  else _set_compressor_attr attr value self.

(** *** Playback *)

(** A method of the window: it may raise, and leaves a window behind
    either way. *)
Definition M (A : Type) : Type := Window → result A * Window.

Definition mret {A : Type} (a : A) : M A := fun self => (Ok a, self).

Definition mbind {A B : Type} (m : M A) (k : A → M B) : M B :=
  fun self =>
    match m self with
    | (Ok a, self') => k a self'
    | (Raise e, self') => (Raise e, self')
    end.

(** [try: body / except Exception as e: handler(e)]. *)
Definition try_except {A : Type} (body : M A) (handler : exn → M A) : M A :=
  fun self =>
    match body self with
    | (Ok a, self') => (Ok a, self')
    | (Raise e, self') => handler e self'
    end.

Definition gets {A : Type} (f : Window → A) : M A := fun self => (Ok (f self), self).

Definition modify (f : Window → Window) : M unit := fun self => (Ok tt, f self).

Notation "x <~ m ;; k" := (mbind m (fun x => k))
  (at level 100, m at next level, right associativity).

(** What [play_sound] calls on its collaborators: the system-volume block
    (with its own handler), the memory cache, the disk cache and the
    engine. Each may change the window and may raise. *)
Record Steps : Type := mkSteps {
  PYCAW_AVAILABLE : bool;
  unmute_system_volume : M unit;
  cache_get : string * string → M (option Sound);
  load_cached_sound_from_disk : SoundItem.t → string → M (option Sound);
  engine_process : Sound → CompressorSettings spec_float → M Sound;
  save_cached_sound_to_disk : SoundItem.t → string → Sound → M unit;
  cache_put : string * string → Sound → M unit
}.

(** [pygame.mixer.stop()] and [sound.play()], on an initialised mixer with
    a free channel: neither raises, and the sound starts. *)
Definition mixer_stop (self : Window) : Window :=
  set_world (set_playing [] (world self)) self.

Definition sound_play (s : Sound) (self : Window) : Window :=
  set_world (set_playing (playing (world self) ++ [s]) (world self)) self.

(** The body of the [try] of [play_sound]. *)
Definition processed_sound (c : Steps) (sound_key : string) (sound_data : SoundItem.t)
    (signature : string) : M Sound :=
  let cache_key := (sound_key, signature) in
  cached <~ cache_get c cache_key ;;
  match cached with
  | Some cached => mret cached
  | None =>
      cached <~ load_cached_sound_from_disk c sound_data signature ;;
      cached <~ match cached with
                | Some cached => mret cached
                | None =>
                    _ <~ modify (print ("Processing audio: " +:+ sound_key +:+ " (" +:+
                                        signature +:+ ")")) ;;
                    settings <~ gets compressor_settings ;;
                    cached <~ engine_process c (SoundItem.sound sound_data) settings ;;
                    _ <~ save_cached_sound_to_disk c sound_data signature cached ;;
                    mret cached
                end ;;
      _ <~ cache_put c cache_key cached ;;
      mret cached
  end.

(** What [play_sound] does before it chooses the sound. *)
Definition before_processing (c : Steps) : M unit :=
  overlap <~ gets opt_overlap ;;
  _ <~ (if overlap then mret tt else modify mixer_stop) ;;
  smart <~ gets opt_smart_mute ;;
  if smart && PYCAW_AVAILABLE c then unmute_system_volume c else mret tt.

(** The sound [play_sound] settles on. *)
Definition sound_to_play (c : Steps) (sound_key : string) (sound_data : SoundItem.t)
  : M Sound :=
  is_enabled <~ gets (fun self => enabled (compressor_settings self)) ;;
  if is_enabled then
    signature <~ gets _compressor_signature ;;
    try_except (processed_sound c sound_key sound_data signature)
      (fun e =>
         _ <~ modify (log_error ("Compressor processing failed for " +:+ sound_key) e) ;;
         mret (SoundItem.sound sound_data))
  else mret (SoundItem.sound sound_data).

Definition play_sound_with (c : Steps) (sound_key : string) : M unit :=
  sound_data <~ gets (fun self => sound_index self !! sound_key) ;;
  match sound_data with
  | None => mret tt
  | Some sound_data =>
      _ <~ before_processing c ;;
      s <~ sound_to_play c sound_key sound_data ;;
      modify (sound_play s)
  end.

(** The collaborators of the program itself. *)

Definition window_cache_get (cache_key : string * string) : M (option Sound) :=
  fun self =>
    match get cache_key (processed_cache self) with
    | Ok (item, c) => (Ok item, set_cache c self)
    | Raise e => (Raise e, self)
    end.

Definition window_cache_put (cache_key : string * string) (s : Sound) : M unit :=
  fun self =>
    match put cache_key s (processed_cache self) with
    | Ok c => (Ok tt, set_cache c self)
    | Raise e => (Raise e, self)
    end.

Definition _load_cached_sound_from_disk (sound_data : SoundItem.t) (signature : string)
  : M (option Sound) :=
  fun self =>
    let cache_file := _disk_cache_filename sound_data signature self in
    if negb (os_path_isfile cache_file (world self)) then (Ok None, self)
    else
      let self :=
        print ("Loaded processed audio from disk cache: " +:+ SoundItem.key sound_data) self in
      match cache_files (world self) !! cache_file ≫= wav with
      | Some s => (Ok (Some s), self)
      | None =>
          (Ok None,
           log_error ("Could not load disk cache for " +:+ SoundItem.key sound_data)
             PygameError self)
      end.

(** The exceptions the handler of [_save_cached_sound_to_disk] names:
    [(pygame.error, OSError, wave.Error)]. *)
Definition save_handles (e : exn) : bool :=
  match e with
  | PygameError | OSError | WaveError => true
  | _ => false
  end.

Definition _save_cached_sound_to_disk (sound_data : SoundItem.t) (signature : string)
    (s : Sound) : M unit :=
  fun self =>
    let cache_file := _disk_cache_filename sound_data signature self in
    let with_file (f : CacheFile) : Window :=
      set_world
        (set_cache_files (<[cache_file := f]> (cache_files (world self))) (world self))
        self in
    let except (e : exn) (self : Window) : result unit * Window :=
      if save_handles e then
        (Ok tt,
         log_error ("Could not save disk cache for " +:+ SoundItem.key sound_data) e self)
      else (Raise e, self) in
    match wave_write (world self) with
    | Written decodes_to => (Ok tt, with_file (mkCacheFile (decodes_to s) false))
    | FailsBeforeOpen e => except e self
    | FailsAfterOpen e behind => except e (with_file behind)
    end.

(** The exceptions the handler of the system-volume block names:
    [(AttributeError, OSError)]. *)
Definition volume_handles (e : exn) : bool :=
  match e with
  | AttributeError | OSError => true
  | _ => false
  end.

(** The [try] of the system-volume block. [volume] is its body (the calls
    on the volume interface of Windows, the re-mute flag and timer): what
    it does is decided outside the program. An exception the handler
    names is logged; any other leaves [play_sound]. *)
Definition system_volume_block (volume : M unit) : M unit :=
  fun self =>
    match volume self with
    | (Ok tt, self') => (Ok tt, self')
    | (Raise e, self') =>
        if volume_handles e then (Ok tt, log_error "Volume control error" e self')
        else (Raise e, self')
    end.

(** [pycaw_available] is the module's [PYCAW_AVAILABLE], set when [pycaw]
    imports. The engine is [CompressorEngine.process]: numpy and pygame
    decide whether it raises, so its outcome is a parameter. *)
Definition window_steps (pycaw_available : bool) (volume : M unit)
    (engine : Sound → CompressorSettings spec_float → result Sound) : Steps :=
  {| PYCAW_AVAILABLE := pycaw_available;
     unmute_system_volume := system_volume_block volume;
     cache_get := window_cache_get;
     load_cached_sound_from_disk := _load_cached_sound_from_disk;
     engine_process := fun s settings self => (engine s settings, self);
     save_cached_sound_to_disk := _save_cached_sound_to_disk;
     cache_put := window_cache_put |}.

Definition play_sound (pycaw_available : bool) (volume : M unit)
    (engine : Sound → CompressorSettings spec_float → result Sound)
    (sound_key : string) : M unit :=
  play_sound_with (window_steps pycaw_available volume engine) sound_key.

(** A window at start-up, for examples: default settings, an empty cache,
    one loaded clip. *)
Definition example_item : SoundItem.t :=
  SoundItem.mk "beep" "beep" (IntArray (SInt 16) [0; 1000; -1000]) "/app/sounds/beep.wav"
    (f64_of_Z 1) None.

Definition example_world : World :=
  {| stat_table := {[ "/app/sounds/beep.wav" := (1700000000000000000, 6) ]};
     cache_files := ∅;
     listdir_fails := false;
     wave_write := Written Some;
     settings_open_fails := false;
     settings_file := None;
     console := [];
     playing := [] |}.

Definition example_window : Window :=
  {| compressor_settings := DEFAULT_COMPRESSOR_SETTINGS;
     processed_cache := __init__ 32;
     _compressor_updating_ui := false;
     sound_index := {[ "beep" := example_item ]};
     opt_overlap := true;
     opt_smart_mute := false;
     geometry_b64 := "";
     processed_cache_dir := "/app/.processed_cache";
     world := example_world |}.

End Soundboard.
Export Soundboard.

(** * More of the code *)

(** ** soundboard.py: the life cycle of the settings *)

Definition set_updating_ui (b : bool) (self : Window) : Window :=
  mkWindow (compressor_settings self) (processed_cache self) b (sound_index self)
    (opt_overlap self) (opt_smart_mute self) (geometry_b64 self)
    (processed_cache_dir self) (world self).

Definition set_opt_overlap (b : bool) (self : Window) : Window :=
  mkWindow (compressor_settings self) (processed_cache self) (_compressor_updating_ui self)
    (sound_index self) b (opt_smart_mute self) (geometry_b64 self)
    (processed_cache_dir self) (world self).

Definition set_opt_smart_mute (b : bool) (self : Window) : Window :=
  mkWindow (compressor_settings self) (processed_cache self) (_compressor_updating_ui self)
    (sound_index self) (opt_overlap self) b (geometry_b64 self)
    (processed_cache_dir self) (world self).

(** [_sync_compressor_controls] sets the widgets from the settings under
    the [_compressor_updating_ui] flag, which its [finally] clears.
    [setChecked] runs the slot of the toggle when the check state changes;
    the slot is run here, under the flag. [control.set_value] blocks the
    signals of the dial, so no dial slot runs. The widgets themselves are
    not part of the window model. *)
Definition _sync_compressor_controls (self : Window) : Window :=
  let self := set_updating_ui true self in
  let self := on_compressor_enabled_toggled (enabled (compressor_settings self)) self in
  set_updating_ui false self.

Definition reset_compressor_defaults : M unit :=
  fun self =>
    match compressor_settings_from_dict
            (compressor_settings_to_dict DEFAULT_COMPRESSOR_SETTINGS) with
    | Raise e => (Raise e, self)
    | Ok s =>
        let self := set_settings s self in
        match set_capacity (cache_max_items (compressor_settings self))
                (processed_cache self) with
        | Raise e => (Raise e, self)
        | Ok c =>
            let self := set_cache c self in
            let self := _clear_processed_cache true self in
            let self := _clear_disk_cache self in
            let self := _sync_compressor_controls self in
            (Ok tt, save_settings self)
        end
    end.

(** What reading the settings file comes to when it does not give a JSON
    object: [open] or [json.load] raises [e] (an [OSError], a
    [json.JSONDecodeError], or the [UnicodeDecodeError] of a file that is
    not UTF-8), or the JSON text is a list, a string, a number, a boolean
    or [null]. *)
Inductive read_problem : Type :=
  | ReadRaises (e : exn)
  | NotAnObject.

(** The exceptions the handler of [load_settings] names:
    [(OSError, json.JSONDecodeError)]. *)
Definition read_handles (e : exn) : bool :=
  match e with
  | OSError | JSONDecodeError => true
  | _ => false
  end.

(** [load_settings]. [settings_file] is [None] when [os.path.isfile] is
    false, and otherwise the object the file holds when reading it gives
    one ([problem] is [None]). An exception of the read that the handler
    names is logged, any other leaves [load_settings]; on a value that is
    not an object [data.get] raises [AttributeError]. Nothing catches what
    [compressor_settings_from_dict] raises. The geometry string goes to
    [saved_geometry_b64], which the window model does not carry. *)
Definition load_settings (problem : option read_problem) : M unit :=
  fun self =>
    match settings_file (world self) with
    | None => (Ok tt, self)
    | Some data =>
        match problem with
        | Some (ReadRaises e) =>
            if read_handles e then
              (Ok tt, log_error "Could not read settings file" e self)
            else (Raise e, self)
        | Some NotAnObject => (Raise AttributeError, self)
        | None =>
            let overlap := data !! "overlap_audio" in
            let smart_mute := data !! "smart_unmute_remute" in
            match compressor_settings_from_dict data with
            | Raise e => (Raise e, self)
            | Ok s =>
                let self := set_settings s self in
                match set_capacity (cache_max_items (compressor_settings self))
                        (processed_cache self) with
                | Raise e => (Raise e, self)
                | Ok c =>
                    let self := set_cache c self in
                    let self :=
                      match overlap with
                      | Some (PBool b) => set_opt_overlap b self
                      | _ => self
                      end in
                    let self :=
                      match smart_mute with
                      | Some (PBool b) => set_opt_smart_mute b self
                      | _ => self
                      end in
                    (Ok tt, self)
                end
            end
        end
    end.

(** ** audio_processing.py: the chain and [process] *)

Section Chain.
Local Open Scope R_scope.

(** [_apply_chain] in exact arithmetic, on the exact gain computer above.
    The array it works on: [ndim == 1], or [ndim == 2] with one row per
    frame. *)
Inductive samples : Type :=
  | Mono (data : list R)
  | Frames (data : list (list R)).

(** [np.max(np.abs(row))]; a row without channels has no maximum. *)
Definition row_peak (row : list R) : result R :=
  match row with
  | [] => Raise ValueError
  | x :: rest => Ok (fold_left (fun acc y => Rmax acc (Rabs y)) rest (Rabs x))
  end.

Fixpoint row_peaks (rows : list (list R)) : result (list R) :=
  match rows with
  | [] => Ok []
  | row :: rest =>
      let? p := row_peak row in
      let? ps := row_peaks rest in
      Ok (p :: ps)
  end.

(** [np.clip(x, lo, hi)]. *)
Definition clip_R (lo hi x : R) : R := Rmin (Rmax x lo) hi.

(** [mixer_init] is the frequency of [pygame.mixer.get_init()], which is
    [None] when the mixer is not initialised. *)
Definition _apply_chain (mixer_init : option Z) (s : samples)
    (settings : CompressorSettings R) : result samples :=
  match mixer_init with
  | None => Raise TypeError
  | Some sample_rate =>
      let input := _db_to_linear (input_gain_db settings) in
      let makeup := _db_to_linear (makeup_gain_db settings) in
      let ceiling := py_max_R _eps (_db_to_linear (output_ceiling_db settings)) in
      match s with
      | Mono data =>
          let data := map (fun x => x * input) data in
          let level := map Rabs data in
          let? gain := _compressor_gain level sample_rate settings in
          let data := zip_with Rmult data gain in
          let data := map (fun x => x * makeup) data in
          Ok (Mono (map (clip_R (- ceiling) ceiling) data))
      | Frames data =>
          let data := map (map (fun x => x * input)) data in
          let? level := row_peaks data in
          let? gain := _compressor_gain level sample_rate settings in
          let data := zip_with (fun row g => map (fun x => x * g) row) data gain in
          let data := map (map (fun x => x * makeup)) data in
          Ok (Frames (map (map (clip_R (- ceiling) ceiling)) data))
      end
  end.

End Chain.

(** [process], with the chain as a parameter: [_sound_to_float] and
    [_float_to_sound] are the binary32 conversions above, and
    [apply_chain] stands for [self._apply_chain(samples, settings)]. *)
Definition process_with (apply_chain : list spec_float → result (list spec_float))
    (sound : Sound) : result (option Sound) :=
  let '(samples, original_dtype) := _sound_to_float sound in
  if (length samples =? 0)%nat then Ok (Some sound)
  else
    let? processed := apply_chain samples in
    Ok (_float_to_sound processed original_dtype).

(** * The vocabulary of the properties *)

(** The last [c] entries of a dictionary. *)
Definition newest {K V : Type} (c : Z) (d : odict K V) : odict K V :=
  drop (length d - Z.to_nat c) d.

(** A value under a float key on which [float] returns: not an [int]
    beyond the binary64 range. *)
Definition float_field_ok (v : option pyval) : Prop :=
  ∀ z s, v = Some (PInt z) → f64_of_Z z ≠ S754_infinity s.

(** A value under an integer key on which [int] returns: not a NaN and
    not an infinity. *)
Definition int_field_ok (v : option pyval) : Prop :=
  v ≠ Some (PFloat S754_nan) ∧ ∀ s, v ≠ Some (PFloat (S754_infinity s)).

(** Two settings with the same seven audio fields. *)
Definition same_audio_fields (s1 s2 : CompressorSettings spec_float) : Prop :=
  input_gain_db s1 = input_gain_db s2 ∧
  threshold_db s1 = threshold_db s2 ∧
  ratio s1 = ratio s2 ∧
  attack_ms s1 = attack_ms s2 ∧
  release_ms s1 = release_ms s2 ∧
  makeup_gain_db s1 = makeup_gain_db s2 ∧
  output_ceiling_db s1 = output_ceiling_db s2.

(** [c] is one of the characters of [s]. *)
Fixpoint occurs (c : ascii) (s : string) : bool :=
  match s with
  | EmptyString => false
  | String a rest => Ascii.eqb a c || occurs c rest
  end.

(** The characters that separate the parts of a digest input. *)
Definition is_separator (c : ascii) : Prop := c = ":"%char ∨ c = "|"%char.

(** The two numbers of the stamp: those of [os.stat], or the sentinel
    [0:0] when it fails. *)
Definition stat_stamp (path : string) (w : World) : Z * Z :=
  match os_stat path w with
  | Ok st => st
  | Raise _ => (0, 0)
  end.

(** The digest input [sourcePath|mtimeNanos:sizeBytes|signature]. *)
Definition raw_key (sound_data : SoundItem.t) (signature : string) (self : Window) : string :=
  let st := stat_stamp (SoundItem.file sound_data) (world self) in
  SoundItem.file sound_data +:+ "|" +:+
  (str_int st.1 +:+ ":" +:+ str_int st.2) +:+ "|" +:+ signature.

(** The words and the states of SHA-1 are on 32 bits. *)
Definition word32 (x : Z) : Prop := 0 ≤ x < 2 ^ 32.

Definition state32 (st : Sha1.state) : Prop :=
  let '(h0, h1, h2, h3, h4) := st in
  word32 h0 ∧ word32 h1 ∧ word32 h2 ∧ word32 h3 ∧ word32 h4.

(** A digest as one number below [2 ^ 160]. *)
Definition digest_number (st : Sha1.state) : Z :=
  let '(h0, h1, h2, h3, h4) := st in
  (((h0 * 2 ^ 32 + h1) * 2 ^ 32 + h2) * 2 ^ 32 + h3) * 2 ^ 32 + h4.

(** [n] times the letter a. *)
Fixpoint letters (n : nat) : string :=
  match n with
  | O => ""
  | S k => String "a" (letters k)
  end.

(** The domain of a dial's field: [ratio], [attack_ms] and [release_ms] are
    at least 1; the other fields are free. *)
Definition in_domain (attr : dial_attr) (value : spec_float) : Prop :=
  match attr with
  | a_ratio | a_attack_ms | a_release_ms => py_ge value (f64_of_Z 1) = true
  | _ => True
  end.

(** The example window after one clip has been played through the
    compressor: the processed clip is in the memory cache and on disk. *)
Definition busy_window : Window :=
  (play_sound false (mret tt) (fun s _ => Ok s) "beep" example_window).2.

(** The formats [pygame.mixer] decodes to. *)
Definition mixer_int_formats : list int_dtype :=
  [UInt 8; SInt 8; UInt 16; SInt 16; SInt 32].



(** A mono array as frames of one channel. *)
Definition as_frames (s : samples) : samples :=
  match s with
  | Mono data => Frames (map (λ x, [x]) data)
  | Frames rows => Frames rows
  end.

(** A sample moved one step toward zero. *)
Definition toward_zero (x : Z) : Z :=
  if x =? 0 then 0 else if 0 <? x then x - 1 else x + 1.

(** A check of every integer of [lo, lo + n). *)
Fixpoint all_from (f : Z → bool) (lo : Z) (n : nat) : bool :=
  match n with
  | O => true
  | S k => f lo && all_from f (lo + 1) k
  end.

(** A signed sample is normalised into [-1, 1] and comes back one step
    toward zero. *)
Definition signed_sample_ok (bits : Z) (x : Z) : bool :=
  let f := signed_to_float bits x in
  SFleb (f32_of_Z (-1)) f && SFleb f (f32_of_Z 1) &&
  match float_to_signed bits f with
  | Some y => y =? toward_zero x
  | None => false
  end.

(** What an unsigned 8-bit sample comes back as. *)
Definition u8_back (x : Z) : Z := if (1 <=? x) && (x <=? 63) then x - 1 else x.

Definition unsigned_sample_ok (x : Z) : bool :=
  let f := unsigned_to_float 8 x in
  SFleb (f32_of_Z (-1)) f && SFleb f (f32_of_Z 1) &&
  match float_to_unsigned 8 f with
  | Some y => y =? u8_back x
  | None => false
  end.


(** [play_sound] from the choice of the sound on, on the window the
    system-volume block left. *)
Definition play_chosen (c : Steps) (sound_key : string) (sound_data : SoundItem.t)
    (self : Window) : result unit * Window :=
  match sound_to_play c sound_key sound_data self with
  | (Ok s, self') => (Ok tt, sound_play s self')
  | (Raise e, self') => (Raise e, self')
  end.

(** The window when [play_sound] has dealt with the sounds already
    playing: [pygame.mixer.stop()] unless overlap is on. *)
Definition stopped (self : Window) : Window :=
  if opt_overlap self then self else mixer_stop self.

(** The state a [ProcessedSoundCache] is in between calls: a capacity of at
    least 1, distinct keys, and no more entries than the capacity. *)
Definition cache_wf {K V : Type} (c : ProcessedSoundCache K V) : Prop :=
  1 ≤ max_items c ∧ NoDup (keys c) ∧ Z.of_nat (length (_store c)) ≤ max_items c.

(** The ten keys [compressor_settings_from_dict] reads. *)
Definition settings_keys : list string :=
  [ "compressor_enabled"; "compressor_input_gain_db"; "compressor_threshold_db";
    "compressor_ratio"; "compressor_attack_ms"; "compressor_release_ms";
    "compressor_makeup_gain_db"; "compressor_output_ceiling_db";
    "compressor_cache_max_items"; "compressor_revision" ].

(** The nine of them that hold numbers. *)
Definition numeric_keys : list string := drop 1 settings_keys.

(** What [_num] does not take as a number: a missing key, [None], a
    string, a list or a dictionary. *)
Definition non_numeric (v : option pyval) : Prop :=
  match v with
  | Some (PBool _) | Some (PInt _) | Some (PFloat _) => False
  | _ => True
  end.

(** * Properties *)

(** Splits conjunctions only ([split] would also try to close an equation
    by unfolding both sides). *)
Ltac conjs := repeat match goal with |- _ ∧ _ => split end.

(** ** The memory cache *)

Section CacheFacts.
Context {K V : Type} `{EqDecision K}.
Implicit Types (d : odict K V) (key : K) (c : Z).

Lemma od_get_None key d : od_get key d = None ↔ key ∉ d.*1.
Proof.
  induction d as [|[k v] d IH]; simpl.
  - split; [intros _; apply not_elem_of_nil | done].
  - destruct (decide (k = key)) as [->|Hne].
    + split; [done | intros Hn; exfalso; apply Hn; left].
    + rewrite IH, not_elem_of_cons. split; [by intros ? | by intros [_ ?]].
Qed.

Lemma od_get_setitem key (v : V) d : od_get key (od_setitem key v d) = Some v.
Proof.
  induction d as [|[k w] d IH]; simpl.
  - by rewrite decide_True.
  - destruct (decide (k = key)) as [->|Hne]; simpl.
    + by rewrite decide_True.
    + by rewrite decide_False.
Qed.

Lemma od_remove_absent key d : key ∉ d.*1 → od_remove key d = d.
Proof.
  induction d as [|[k w] d IH]; simpl; [done|].
  rewrite not_elem_of_cons. intros [Hne Hd].
  rewrite decide_False by done. by rewrite IH.
Qed.

Lemma od_remove_setitem key (v : V) d :
  od_remove key (od_setitem key v d) = od_remove key d.
Proof.
  induction d as [|[k w] d IH]; simpl.
  - by rewrite decide_True.
  - destruct (decide (k = key)) as [->|Hne]; simpl.
    + by rewrite decide_True.
    + rewrite decide_False by done. by rewrite IH.
Qed.

Lemma od_remove_app key d1 d2 :
  key ∉ d2.*1 → od_remove key (d1 ++ d2) = od_remove key d1 ++ d2.
Proof.
  intros Hd2. induction d1 as [|[k w] d1 IH]; simpl.
  - by apply od_remove_absent.
  - destruct (decide (k = key)); [done|]. by rewrite IH.
Qed.


Lemma evict_newest c d : 0 ≤ c → evict c d = Ok (newest c d).
Proof.
  intros Hc. unfold newest. induction d as [|kv d IH].
  - cbn [evict length]. destruct (Z.gtb_spec (Z.of_nat 0) c); [lia | done].
  - cbn [evict]. destruct (Z.gtb_spec (Z.of_nat (length (kv :: d))) c) as [Hgt|Hle].
    + rewrite IH. simpl in Hgt. simpl length.
      replace (S (length d) - Z.to_nat c)%nat with (S (length d - Z.to_nat c)) by lia.
      done.
    + simpl in Hle. simpl length.
      replace (S (length d) - Z.to_nat c)%nat with 0%nat by lia. done.
Qed.

Lemma newest_app_long c d1 d2 :
  (Z.to_nat c ≤ length d2)%nat → newest c (d1 ++ d2) = newest c d2.
Proof.
  intros Hlen. unfold newest. rewrite length_app.
  replace (length d1 + length d2 - Z.to_nat c)%nat
    with (length d1 + (length d2 - Z.to_nat c))%nat by lia.
  by rewrite drop_app_add.
Qed.

Lemma newest_idem_app c d1 d2 : newest c (newest c d1 ++ d2) = newest c (d1 ++ d2).
Proof.
  unfold newest. rewrite !length_app, length_drop.
  set (n := (length d1 - Z.to_nat c)%nat).
  trans (drop (length d1 + length d2 - Z.to_nat c) (take n d1 ++ (drop n d1 ++ d2))).
  - rewrite (drop_app_ge (take n d1)) by (rewrite length_take; lia).
    f_equal. rewrite length_take. lia.
  - by rewrite app_assoc, take_drop.
Qed.

Lemma newest_length c d : 1 ≤ c → (length (newest c d) ≤ Z.to_nat c)%nat.
Proof. intros. unfold newest. rewrite length_drop. lia. Qed.

(** One [put]: the key moves (or arrives) at the end, and the oldest
    entries beyond the capacity go. *)
Lemma put_newest key (v : V) (self : ProcessedSoundCache K V) :
  0 ≤ max_items self →
  put key v self =
    Ok {| max_items := max_items self;
          _store := newest (max_items self) (od_remove key (_store self) ++ [(key, v)]) |}.
Proof.
  intros Hc. unfold put, od_move_to_end.
  rewrite od_get_setitem, od_remove_setitem. simpl.
  rewrite evict_newest by done. done.
Qed.

(** A run of [put]s of distinct keys, none of which is among the entries
    [recent] at the end of the store: the store ends with [recent] and
    the new entries, cut to the capacity. *)
Lemma put_all_newest c (items : list (K * V)) :
  1 ≤ c →
  ∀ old recent,
    NoDup items.*1 →
    (∀ key, key ∈ items.*1 → key ∉ recent.*1) →
    items ≠ [] →
    ∃ old',
      put_all items {| max_items := c; _store := old ++ recent |} =
        Ok {| max_items := c; _store := newest c (old' ++ recent ++ items) |}.
Proof.
  intros Hc. induction items as [|[k v] items IH]; intros old recent Hnd Hfresh Hne; [done|].
  cbn [put_all]. rewrite put_newest by (simpl; lia). cbn [bind max_items _store].
  rewrite od_remove_app by (apply Hfresh; left).
  destruct items as [|kv' items'].
  { exists (od_remove k old). simpl. by rewrite <-app_assoc. }
  set (rest := kv' :: items') in *.
  apply NoDup_cons in Hnd as [Hk Hnd].
  assert (∀ key, key ∈ rest.*1 → key ∉ (recent ++ [(k, v)]).*1) as Hfresh'.
  { intros key Hin. rewrite fmap_app, not_elem_of_app. split.
    - apply Hfresh. by right.
    - simpl. rewrite not_elem_of_cons. split; [|apply not_elem_of_nil].
      intros ->. done. }
  set (old1 := od_remove k old) in *.
  destruct (decide (length (old1 ++ recent ++ [(k, v)]) - Z.to_nat c ≤ length old1)%nat)
    as [Hshort|Hlong].
  - (* only entries of [old] are evicted *)
    rewrite <-app_assoc.
    unfold newest at 1. rewrite drop_app_le by done.
    destruct (IH (drop (length (old1 ++ recent ++ [(k, v)]) - Z.to_nat c) old1)
                 (recent ++ [(k, v)]) Hnd Hfresh' ltac:(done)) as [old' Heq].
    exists old'. rewrite Heq. by rewrite <-(app_assoc recent).
  - (* the store is exactly the newest [c] of [recent] and the new entry *)
    rewrite <-app_assoc.
    assert (Z.to_nat c ≤ length (recent ++ [(k, v)]))%nat as Hfull.
    { rewrite !length_app in *. simpl in *. lia. }
    rewrite newest_app_long by done.
    assert (∀ key, key ∈ rest.*1 → key ∉ (newest c (recent ++ [(k, v)])).*1) as Hfresh''.
    { intros key Hin Hel. apply (Hfresh' key Hin).
      unfold newest in Hel. rewrite fmap_drop in Hel.
      eapply list_elem_of_lookup in Hel as [i Hel].
      rewrite lookup_drop in Hel. by eapply list_elem_of_lookup_2. }
    destruct (IH [] (newest c (recent ++ [(k, v)])) Hnd Hfresh'' ltac:(done)) as [old' Heq].
    exists []. cbn [app] in Heq. rewrite Heq. f_equal. f_equal.
    assert (length (newest c (recent ++ [(k, v)])) = Z.to_nat c) as Hlen.
    { unfold newest. rewrite length_drop. lia. }
    rewrite newest_app_long by (rewrite length_app; lia).
    rewrite newest_idem_app. by rewrite <-app_assoc.
Qed.

End CacheFacts.

(** C3. For a capacity [c >= 1], [put]ting [c + k] entries with distinct
    keys into a memory cache of that capacity, whatever it held, leaves
    exactly the last [c] of them, in the order they were put: the [k]
    oldest are the ones evicted. With a capacity of 2, after [put(A)],
    [put(B)], [put(C)], [get(A)] is absent and [get(B)], [get(C)] are
    present. *)
Theorem put_keeps_most_recent {K V : Type} `{EqDecision K}
    (c : Z) (k : nat) (items : list (K * V)) (cache : ProcessedSoundCache K V) :
  1 ≤ c →
  max_items cache = c →
  NoDup items.*1 →
  length items = (Z.to_nat c + k)%nat →
  (∃ cache',
      put_all items cache = Ok cache' ∧
      max_items cache' = c ∧
      _store cache' = drop k items ∧
      ∀ key, od_get key (_store cache') = None ↔ key ∉ drop k items.*1) ∧
  (∀ (A B C : K) (a b c' : V),
      A ≠ B → A ≠ C → B ≠ C →
      ∃ c3 c4 c5,
        put_all [(A, a); (B, b); (C, c')] (__init__ 2) = Ok c3 ∧
        get A c3 = Ok (None, c3) ∧
        get B c3 = Ok (Some b, c4) ∧
        get C c4 = Ok (Some c', c5)).
Proof.
  intros Hc Hmax Hnd Hlen. split.
  - destruct cache as [m store]. simpl in Hmax. subst m.
    assert (items ≠ []) as Hne.
    { intros ->. simpl in Hlen. lia. }
    destruct (put_all_newest c items Hc store [] Hnd) as [old' Heq]; [|done|].
    { intros key _. apply not_elem_of_nil. }
    rewrite app_nil_r in Heq. rewrite app_nil_l in Heq.
    rewrite newest_app_long in Heq by lia.
    assert (newest c items = drop k items) as Hdrop.
    { unfold newest. f_equal. lia. }
    rewrite Hdrop in Heq.
    eexists. split; [exact Heq|]. split; [done|]. split; [done|].
    intros key. cbn [_store]. by rewrite od_get_None, fmap_drop.
  - intros A B C a b c' HAB HAC HBC.
    exists {| max_items := 2; _store := [(B, b); (C, c')] |},
           {| max_items := 2; _store := [(C, c'); (B, b)] |},
           {| max_items := 2; _store := [(B, b); (C, c')] |}.
    unfold __init__, put_all, put, get, od_move_to_end.
    repeat split; simpl; repeat (case_decide; simpl; try congruence); reflexivity.
Qed.

Lemma put_keeps_most_recent_witness :
  ∃ cache',
    put_all [("A", 1); ("B", 2); ("C", 3); ("D", 4); ("E", 5)]
      {| max_items := 2; _store := [("Z", 0); ("B", 7)] |} = Ok cache' ∧
    _store cache' = [("D", 4); ("E", 5)].
Proof.
  destruct (put_keeps_most_recent 2 3
              [("A", 1); ("B", 2); ("C", 3); ("D", 4); ("E", 5)]
              {| max_items := 2; _store := [("Z", 0); ("B", 7)] |})
    as [(cache' & Hput & _ & Hstore & _) _].
  - lia.
  - reflexivity.
  - apply (bool_decide_unpack _). vm_compute. exact I.
  - reflexivity.
  - exists cache'. split; [exact Hput | exact Hstore].
Defined.

(** C10. [get] of a key the cache does not hold returns absent and the
    cache as it was: same entries, same order, same capacity. *)
Theorem get_missing_leaves_cache {K V : Type} `{EqDecision K}
    (key : K) (cache : ProcessedSoundCache K V) :
  key ∉ keys cache →
  get key cache = Ok (None, cache).
Proof.
  intros Hkey. unfold get.
  by rewrite (proj2 (od_get_None key (_store cache)) Hkey).
Qed.

Lemma get_missing_leaves_cache_witness :
  get "C" {| max_items := 2; _store := [("A", 1); ("B", 2)] |}
  = Ok (None, {| max_items := 2; _store := [("A", 1); ("B", 2)] |}).
Proof.
  apply (get_missing_leaves_cache "C" {| max_items := 2; _store := [("A", 1); ("B", 2)] |}).
  apply (bool_decide_unpack _). vm_compute. exact I.
Defined.

(** ** The settings model *)

Section SettingsFacts.
Implicit Types (x : spec_float) (s : CompressorSettings spec_float).

(** Two floats that compare equal, one of them finite and not zero, are
    the same float. *)
Lemma SFcompare_Eq_finite (s1 : bool) (m1 : positive) (e1 : Z) x :
  SFcompare (S754_finite s1 m1 e1) x = Some Eq → x = S754_finite s1 m1 e1.
Proof.
  destruct x as [s|s| |s m e]; simpl; try (destruct s1; discriminate);
    try (destruct s; discriminate).
  destruct s1, s; try discriminate.
  - destruct (Z.compare_spec e1 e) as [->|?|?]; try discriminate.
    intros [= Hm]. apply (f_equal CompOpp) in Hm. rewrite CompOpp_involutive in Hm.
    simpl in Hm. apply Pos.compare_eq in Hm. by subst.
  - destruct (Z.compare_spec e1 e) as [->|?|?]; try discriminate.
    intros [= Hm]. apply Pos.compare_eq in Hm. by subst.
Qed.

(** [max(1.0, x)] is [x] when [x >= 1.0]. *)
Lemma py_max_float_ge x :
  py_ge x (f64_of_Z 1) = true → py_max_float (f64_of_Z 1) x = x.
Proof.
  unfold py_ge, py_max_float, SFleb, SFltb.
  destruct (SFcompare (f64_of_Z 1) x) as [[| |]|] eqn:Hcmp; try discriminate; [|done].
  intros _. symmetry. revert Hcmp. apply SFcompare_Eq_finite.
Qed.

(** [max(1.0, x)] is at least [1.0], whatever [x] is (a NaN included). *)
Lemma py_max_float_valid x : py_ge (py_max_float (f64_of_Z 1) x) (f64_of_Z 1) = true.
Proof.
  unfold py_ge, py_max_float, SFleb, SFltb.
  destruct (SFcompare (f64_of_Z 1) x) as [[| |]|] eqn:Hcmp; try reflexivity.
  by rewrite Hcmp.
Qed.

Lemma py_max_int_ge (a z : Z) : a ≤ z → py_max_int a z = z.
Proof. unfold py_max_int. destruct (Z.ltb_spec a z); lia. Qed.

Lemma py_max_int_valid (a z : Z) : a ≤ py_max_int a z.
Proof. unfold py_max_int. destruct (Z.ltb_spec a z); lia. Qed.

(** What [compressor_settings_to_dict] holds under each key. *)
Lemma to_dict_lookups s :
  let d := compressor_settings_to_dict s in
  d !! "compressor_enabled" = Some (PBool (enabled s)) ∧
  d !! "compressor_input_gain_db" = Some (PFloat (input_gain_db s)) ∧
  d !! "compressor_threshold_db" = Some (PFloat (threshold_db s)) ∧
  d !! "compressor_ratio" = Some (PFloat (ratio s)) ∧
  d !! "compressor_attack_ms" = Some (PFloat (attack_ms s)) ∧
  d !! "compressor_release_ms" = Some (PFloat (release_ms s)) ∧
  d !! "compressor_makeup_gain_db" = Some (PFloat (makeup_gain_db s)) ∧
  d !! "compressor_output_ceiling_db" = Some (PFloat (output_ceiling_db s)) ∧
  d !! "compressor_cache_max_items" = Some (PInt (cache_max_items s)) ∧
  d !! "compressor_revision" = Some (PInt (revision s)).
Proof. intros d. conjs; vm_compute; reflexivity. Qed.

(** Whenever [compressor_settings_from_dict] returns, the settings it
    returns satisfy the invariants of the data model. *)
Lemma from_dict_valid (data : gmap string pyval) s :
  compressor_settings_from_dict data = Ok s → settings_valid s ∧ 0 ≤ revision s.
Proof.
  unfold compressor_settings_from_dict.
  repeat (match goal with
          | |- bind ?r _ = Ok _ → _ => destruct r; simpl; [|discriminate]
          end).
  intros [= <-]. unfold settings_valid. simpl.
  auto using py_max_float_valid, py_max_int_valid.
Qed.

Lemma py_float_num_returns (v : option pyval) (d : spec_float) :
  float_field_ok v → ∃ f, py_float (_num v (NFloat d)) = Ok f.
Proof.
  intros Hok. destruct v as [[| b | z | f | | |]|]; simpl; eauto.
  destruct (f64_of_Z z) as [| sg | |] eqn:Hz; eauto.
  by destruct (Hok z sg eq_refl).
Qed.

Lemma py_int_num_returns (v : option pyval) (d : Z) :
  int_field_ok v → ∃ z, py_int (_num v (NInt d)) = Ok z.
Proof.
  intros [Hnan Hinf]. destruct v as [[| b | z | [| sg | |] | | |]|]; simpl; eauto.
  - by destruct (Hinf sg).
  - by destruct Hnan.
Qed.

(** [compressor_settings_from_dict] returns on every dictionary whose
    values are of any type, as long as no integer field holds a NaN or an
    infinity and no float field holds an integer beyond the binary64
    range; what it returns satisfies the invariants. *)
Lemma from_dict_returns (data : gmap string pyval) :
  float_field_ok (data !! "compressor_input_gain_db") →
  float_field_ok (data !! "compressor_threshold_db") →
  float_field_ok (data !! "compressor_ratio") →
  float_field_ok (data !! "compressor_attack_ms") →
  float_field_ok (data !! "compressor_release_ms") →
  float_field_ok (data !! "compressor_makeup_gain_db") →
  float_field_ok (data !! "compressor_output_ceiling_db") →
  int_field_ok (data !! "compressor_cache_max_items") →
  int_field_ok (data !! "compressor_revision") →
  ∃ s, compressor_settings_from_dict data = Ok s ∧ settings_valid s ∧ 0 ≤ revision s.
Proof.
  intros Hig Hth Hra Hat Hre Hmk Hce Hcm Hrv.
  assert (∃ s, compressor_settings_from_dict data = Ok s) as [s Hs].
  { unfold compressor_settings_from_dict.
    destruct (py_float_num_returns _ (input_gain_db DEFAULT_COMPRESSOR_SETTINGS) Hig) as [? ->].
    destruct (py_float_num_returns _ (threshold_db DEFAULT_COMPRESSOR_SETTINGS) Hth) as [? ->].
    destruct (py_float_num_returns _ (ratio DEFAULT_COMPRESSOR_SETTINGS) Hra) as [? ->].
    destruct (py_float_num_returns _ (attack_ms DEFAULT_COMPRESSOR_SETTINGS) Hat) as [? ->].
    destruct (py_float_num_returns _ (release_ms DEFAULT_COMPRESSOR_SETTINGS) Hre) as [? ->].
    destruct (py_float_num_returns _ (makeup_gain_db DEFAULT_COMPRESSOR_SETTINGS) Hmk) as [? ->].
    destruct (py_float_num_returns _ (output_ceiling_db DEFAULT_COMPRESSOR_SETTINGS) Hce)
      as [? ->].
    destruct (py_int_num_returns _ (cache_max_items DEFAULT_COMPRESSOR_SETTINGS) Hcm) as [? ->].
    destruct (py_int_num_returns _ (revision DEFAULT_COMPRESSOR_SETTINGS) Hrv) as [? ->].
    cbn [bind]. eauto. }
  exists s. split; [done|]. by apply (from_dict_valid data).
Qed.

End SettingsFacts.

(** C4. Deserialising the serialisation of settings that satisfy the
    invariants ([ratio >= 1.0], [attack_ms >= 1.0], [release_ms >= 1.0],
    [cache_max_items >= 1], [revision >= 0]) returns, and returns the same
    settings. *)
Theorem settings_roundtrip (s : CompressorSettings spec_float) :
  py_ge (ratio s) (f64_of_Z 1) = true →
  py_ge (attack_ms s) (f64_of_Z 1) = true →
  py_ge (release_ms s) (f64_of_Z 1) = true →
  1 ≤ cache_max_items s →
  0 ≤ revision s →
  compressor_settings_from_dict (compressor_settings_to_dict s) = Ok s.
Proof.
  intros Hratio Hattack Hrelease Hitems Hrev.
  destruct (to_dict_lookups s) as (He & Hig & Hth & Hra & Hat & Hre & Hmk & Hce & Hcm & Hrv).
  unfold compressor_settings_from_dict, dict_get_default.
  rewrite He, Hig, Hth, Hra, Hat, Hre, Hmk, Hce, Hcm, Hrv. cbn [_num py_float py_int bind py_bool].
  rewrite !py_max_float_ge, !py_max_int_ge by done.
  by destruct s.
Qed.

Lemma settings_roundtrip_witness :
  compressor_settings_from_dict (compressor_settings_to_dict DEFAULT_COMPRESSOR_SETTINGS)
  = Ok DEFAULT_COMPRESSOR_SETTINGS.
Proof.
  apply (settings_roundtrip DEFAULT_COMPRESSOR_SETTINGS);
    solve [vm_compute; reflexivity | vm_compute; discriminate].
Defined.

(** C8 (what the code does at the inputs where the claim fails).
    [int(float("nan"))] raises [ValueError] and [int(float("inf"))] raises
    [OverflowError], and [_num] lets both through to the two integer
    fields; [float] of an integer beyond the binary64 range raises
    [OverflowError] under a float field. *)
Theorem from_dict_raises :
  compressor_settings_from_dict {[ "compressor_cache_max_items" := PFloat S754_nan ]}
    = Raise ValueError ∧
  compressor_settings_from_dict {[ "compressor_revision" := PFloat (S754_infinity false) ]}
    = Raise OverflowError ∧
  compressor_settings_from_dict {[ "compressor_ratio" := PInt (2 ^ 1024) ]}
    = Raise OverflowError.
Proof. conjs; vm_compute; reflexivity. Qed.

(** ** The settings signature *)


(** Toggling the compressor changes [enabled], the console and the settings
    file, and nothing else. *)
Lemma toggle_frame (checked : bool) (self : Window) :
  let self' := on_compressor_enabled_toggled checked self in
  same_audio_fields (compressor_settings self') (compressor_settings self) ∧
  cache_max_items (compressor_settings self') = cache_max_items (compressor_settings self) ∧
  revision (compressor_settings self') = revision (compressor_settings self) ∧
  processed_cache self' = processed_cache self ∧
  processed_cache_dir self' = processed_cache_dir self ∧
  stat_table (world self') = stat_table (world self) ∧
  cache_files (world self') = cache_files (world self) ∧
  _compressor_updating_ui self' = _compressor_updating_ui self.
Proof.
  unfold on_compressor_enabled_toggled, save_settings, same_audio_fields.
  destruct (_compressor_updating_ui self) eqn:Hui; [by rewrite ?Hui|].
  simpl. destruct (settings_open_fails (world self)); simpl; by rewrite ?Hui.
Qed.

Lemma signature_same_fields (self1 self2 : Window) :
  same_audio_fields (compressor_settings self1) (compressor_settings self2) →
  _compressor_signature self1 = _compressor_signature self2.
Proof.
  intros (Hig & Hth & Hra & Hat & Hre & Hmk & Hce).
  unfold _compressor_signature. by rewrite Hig, Hth, Hra, Hat, Hre, Hmk, Hce.
Qed.



(** ** The disk cache key *)

Section StringFacts.
Implicit Types (s t u : string) (c : ascii).

Lemma string_app_assoc s t u : (s +:+ t) +:+ u = s +:+ t +:+ u.
Proof.
  induction s as [|a s IH]; [done|].
  change (String a ((s +:+ t) +:+ u) = String a (s +:+ t +:+ u)). by rewrite IH.
Qed.

Lemma string_length_app s t :
  String.length (s +:+ t) = (String.length s + String.length t)%nat.
Proof. induction s as [|a s IH]; simpl; [done|]. by rewrite IH. Qed.

Lemma string_app_inj_r s1 s2 t : s1 +:+ t = s2 +:+ t → s1 = s2.
Proof.
  revert s2. induction s1 as [|a s1 IH]; intros [|b s2] Heq; simpl in Heq.
  - done.
  - apply (f_equal String.length) in Heq.
    rewrite !string_length_app in Heq. simpl in Heq. lia.
  - apply (f_equal String.length) in Heq.
    rewrite !string_length_app in Heq. simpl in Heq. lia.
  - injection Heq as -> Heq. f_equal. by apply IH.
Qed.


Lemma occurs_app c s t : occurs c (s +:+ t) = occurs c s || occurs c t.
Proof. induction s as [|a s IH]; simpl; [done|]. by rewrite IH, orb_assoc. Qed.

(** A string is cut in one way only at the first [c]. *)
Lemma split_at_char c s t s' t' :
  occurs c s = false → occurs c s' = false →
  s +:+ String c t = s' +:+ String c t' → s = s' ∧ t = t'.
Proof.
  revert s'. induction s as [|a s IH]; intros [|b s'] Hs Hs' Heq; simpl in *.
  - by injection Heq as ->.
  - injection Heq as <- _. by rewrite Ascii.eqb_refl in Hs'.
  - injection Heq as -> _. by rewrite Ascii.eqb_refl in Hs.
  - injection Heq as -> Heq. apply orb_false_iff in Hs as [_ Hs].
    apply orb_false_iff in Hs' as [_ Hs'].
    destruct (IH s' Hs Hs' Heq) as [-> ->]. done.
Qed.


Lemma pretty_N_char_not_separator c (d : N) : is_separator c → pretty_N_char d ≠ c.
Proof.
  intros [-> | ->]; unfold pretty_N_char; repeat case_match; discriminate.
Qed.

Lemma occurs_pretty_N_go c (x : N) s :
  is_separator c → occurs c s = false → occurs c (pretty_N_go x s) = false.
Proof.
  intros Hc. revert s. induction (N.lt_wf_0 x) as [x _ IH]; intros s Hs.
  destruct (decide (x = 0)%N) as [->|Hx]; [by rewrite pretty_N_go_0|].
  rewrite pretty_N_go_step by lia. apply IH.
  - apply N.div_lt; lia.
  - simpl. rewrite Hs, orb_false_r. apply Ascii.eqb_neq.
    by apply pretty_N_char_not_separator.
Qed.

(** [str(n)] has digits and a sign only. *)
Lemma occurs_str_int c (z : Z) : is_separator c → occurs c (str_int z) = false.
Proof.
  intros Hc. unfold str_int, pretty, pretty_Z.
  assert (∀ n : N, occurs c (pretty n) = false) as HN.
  { intros n. unfold pretty, pretty_N. case_decide.
    - destruct Hc as [-> | ->]; reflexivity.
    - by apply occurs_pretty_N_go. }
  destruct z as [|p|p].
  - destruct Hc as [-> | ->]; reflexivity.
  - apply HN.
  - rewrite occurs_app. change (pretty p) with (pretty (N.pos p)). rewrite HN.
    destruct Hc as [-> | ->]; reflexivity.
Qed.

End StringFacts.

Section DiskKeyFacts.
Implicit Types (sound_data : SoundItem.t) (self : Window) (signature : string).



Lemma disk_cache_filename_unfold sound_data signature self :
  _disk_cache_filename sound_data signature self =
  path_join (processed_cache_dir self)
    (Sha1.hexdigest (raw_key sound_data signature self) +:+ ".wav").
Proof.
  unfold _disk_cache_filename, raw_key, stat_stamp.
  destruct (os_stat (SoundItem.file sound_data) (world self)) as [[m sz]|e]; reflexivity.
Qed.

(** The digest input determines the stamp and the signature. *)
Lemma raw_key_inj sound_data signature1 signature2 self1 self2 :
  raw_key sound_data signature1 self1 = raw_key sound_data signature2 self2 →
  stat_stamp (SoundItem.file sound_data) (world self1) =
    stat_stamp (SoundItem.file sound_data) (world self2) ∧
  signature1 = signature2.
Proof.
  unfold raw_key.
  destruct (stat_stamp (SoundItem.file sound_data) (world self1)) as [m1 z1].
  destruct (stat_stamp (SoundItem.file sound_data) (world self2)) as [m2 z2].
  cbn [fst snd]. intros Heq.
  apply (inj (String.app _)) in Heq.
  change ("|" +:+ ?s) with (String "|" s) in Heq. injection Heq as Heq.
  assert (∀ m z, occurs "|" (str_int m +:+ ":" +:+ str_int z) = false) as Hbar.
  { intros m z. rewrite !occurs_app, !occurs_str_int by (by right). reflexivity. }
  apply (split_at_char "|") in Heq as [Hstamp ->]; [|apply Hbar..].
  apply (split_at_char ":") in Hstamp as [Hm Hz];
    [|apply occurs_str_int; by left..].
  apply (inj pretty) in Hm. apply (inj pretty) in Hz. by subst.
Qed.

Lemma hex_digit_not_slash (n : Z) : Sha1.hex_digit n ≠ "/"%char.
Proof. unfold Sha1.hex_digit. repeat case_match; discriminate. Qed.

(** [os.path.join] keeps the directory in front of a relative name. *)
Lemma path_join_relative (dir name : string) :
  starts_with "/" name = false → path_join dir name = dir_prefix dir +:+ name.
Proof.
  intros Hrel. unfold path_join, dir_prefix. rewrite Hrel.
  destruct (String.eqb dir "" || ends_with "/" dir); [reflexivity|].
  by rewrite string_app_assoc.
Qed.

Lemma hexdigest_relative (raw suffix : string) :
  starts_with "/" (Sha1.hexdigest raw +:+ suffix) = false.
Proof.
  unfold starts_with, Sha1.hexdigest, Sha1.hex_of_state.
  destruct (Sha1.digest raw) as [[[[h0 h1] h2] h3] h4].
  change (Sha1.hex_go 8 h0) with
    (String (Sha1.hex_digit ((h0 / 16 ^ Z.of_nat 7) mod 16)) (Sha1.hex_go 7 h0)).
  lazy beta iota zeta delta [String.append String.prefix].
  destruct (ascii_dec "/" (Sha1.hex_digit ((h0 / 16 ^ Z.of_nat 7) mod 16))) as [Heq|Hne];
    [|done].
  symmetry in Heq. by apply hex_digit_not_slash in Heq.
Qed.

Lemma path_join_digest (dir raw : string) :
  path_join dir (Sha1.hexdigest raw +:+ ".wav") =
  dir_prefix dir +:+ Sha1.hexdigest raw +:+ ".wav".
Proof. apply path_join_relative, hexdigest_relative. Qed.

(** Two clips' cache files with the same name in the same directory have
    the same digest. *)
Lemma disk_cache_filename_digest sound_data signature1 signature2 self1 self2 :
  processed_cache_dir self1 = processed_cache_dir self2 →
  _disk_cache_filename sound_data signature1 self1 =
    _disk_cache_filename sound_data signature2 self2 →
  Sha1.hexdigest (raw_key sound_data signature1 self1) =
    Sha1.hexdigest (raw_key sound_data signature2 self2).
Proof.
  intros Hdir. rewrite !disk_cache_filename_unfold, !path_join_digest, Hdir.
  intros Heq. apply (inj (String.app _)) in Heq. by apply string_app_inj_r in Heq.
Qed.

(** *** Counting digests *)


Lemma add32_word32 (a b : Z) : word32 (Sha1.add32 a b).
Proof. unfold word32, Sha1.add32. apply Z.mod_pos_bound. lia. Qed.

Lemma compress_state32 (h : Sha1.state) (block : list Z) : state32 (Sha1.compress h block).
Proof.
  unfold Sha1.compress. destruct h as [[[[h0 h1] h2] h3] h4].
  destruct (Sha1.rounds _ _ _) as [[[[a b] c] d] e].
  unfold state32. auto using add32_word32.
Qed.

Lemma digest_state32 (s : string) : state32 (Sha1.digest s).
Proof.
  unfold Sha1.digest.
  generalize (Sha1.blocks_of_words
                (length (Sha1.words_of_bytes (Sha1.pad (Sha1.bytes_of_string s))))
                (Sha1.words_of_bytes (Sha1.pad (Sha1.bytes_of_string s)))).
  intros blocks.
  assert (state32 Sha1.initial) as Hinit.
  { unfold state32, Sha1.initial, word32. lia. }
  revert Hinit. generalize Sha1.initial.
  induction blocks as [|b blocks IH]; intros h Hh; simpl; [done|].
  apply IH, compress_state32.
Qed.


Lemma digest_number_bound (s : string) :
  0 ≤ digest_number (Sha1.digest s) < 2 ^ 160.
Proof.
  pose proof (digest_state32 s) as Hst.
  destruct (Sha1.digest s) as [[[[h0 h1] h2] h3] h4].
  unfold state32, word32 in Hst. unfold digest_number. lia.
Qed.

Lemma digest_number_inj (s1 s2 : string) :
  digest_number (Sha1.digest s1) = digest_number (Sha1.digest s2) →
  Sha1.digest s1 = Sha1.digest s2.
Proof.
  pose proof (digest_state32 s1) as Hst1. pose proof (digest_state32 s2) as Hst2.
  destruct (Sha1.digest s1) as [[[[a0 a1] a2] a3] a4].
  destruct (Sha1.digest s2) as [[[[b0 b1] b2] b3] b4].
  unfold state32, word32 in Hst1, Hst2. unfold digest_number. intros Heq.
  assert (a4 = b4) by lia. assert (a3 = b3) by lia. assert (a2 = b2) by lia.
  assert (a1 = b1) by lia. assert (a0 = b0) by lia. by subst.
Qed.


Lemma letters_length (n : nat) : String.length (letters n) = n.
Proof. induction n as [|n IH]; simpl; [done|]. by rewrite IH. Qed.

(** There are more signature strings than digests: two of them give one
    clip the same cache file. *)
Lemma digest_pigeonhole sound_data self :
  ∃ signature1 signature2,
    signature1 ≠ signature2 ∧
    _disk_cache_filename sound_data signature1 self =
      _disk_cache_filename sound_data signature2 self.
Proof.
  set (f := fun i : nat =>
              Z.to_nat (digest_number (Sha1.digest (raw_key sound_data (letters i) self)))).
  destruct (nat_pigeonhole f (S (Z.to_nat (2 ^ 160))) (Z.to_nat (2 ^ 160)))
    as (i1 & i2 & Hlt & Heq).
  - apply Nat.lt_succ_diag_r.
  - intros i _. unfold f. apply Z2Nat.inj_lt; try apply digest_number_bound. lia.
  - exists (letters i1), (letters i2). split.
    + intros Heq'. apply (f_equal String.length) in Heq'.
      rewrite !letters_length in Heq'. lia.
    + unfold f in Heq. apply Z2Nat.inj in Heq; try apply digest_number_bound.
      apply digest_number_inj in Heq.
      rewrite !disk_cache_filename_unfold. unfold Sha1.hexdigest. by rewrite Heq.
Qed.

End DiskKeyFacts.

(** By counting alone the name cannot be an injective function of the
    signature string: there are only [2 ^ 160] digests. The argument
    exhibits no two strings, and none is known: whether two signatures the
    program produces collide is the collision resistance of SHA-1. *)
Lemma disk_cache_key_not_injective :
  ¬ (∀ (sound_data : SoundItem.t) (self : Window) (signature1 signature2 : string),
       signature1 ≠ signature2 →
       _disk_cache_filename sound_data signature1 self ≠
         _disk_cache_filename sound_data signature2 self).
Proof.
  intros Hinj.
  destruct (digest_pigeonhole example_item example_window) as (s1 & s2 & Hne & Heq).
  exact (Hinj example_item example_window s1 s2 Hne Heq).
Qed.

(** X26. The disk cache file of a clip is [<digest>.wav] in the
    cache directory, the digest being the SHA-1 of
    [sourcePath|mtimeNanos:sizeBytes|signature], with [0:0] for the stamp
    when [os.stat] fails. The digest input changes whenever the signature,
    the modification stamp or the size changes; so two cache files of one
    clip in one directory have the same name only if stamp and signature
    are the same, or the two digest inputs collide under SHA-1. The name is
    the same across windows whose settings differ outside the seven
    signature fields. *)
Theorem disk_cache_key (sound_data : SoundItem.t) (signature1 signature2 : string)
    (self1 self2 : Window) :
  processed_cache_dir self1 = processed_cache_dir self2 →
  let stamp1 := stat_stamp (SoundItem.file sound_data) (world self1) in
  let stamp2 := stat_stamp (SoundItem.file sound_data) (world self2) in
  let raw1 := raw_key sound_data signature1 self1 in
  let raw2 := raw_key sound_data signature2 self2 in
  _disk_cache_filename sound_data signature1 self1 =
    path_join (processed_cache_dir self1) (Sha1.hexdigest raw1 +:+ ".wav") ∧
  raw1 =
    SoundItem.file sound_data +:+ "|" +:+
    (str_int stamp1.1 +:+ ":" +:+ str_int stamp1.2) +:+ "|" +:+ signature1 ∧
  (os_stat (SoundItem.file sound_data) (world self1) = Raise OSError → stamp1 = (0, 0)) ∧
  (raw1 = raw2 ↔ stamp1 = stamp2 ∧ signature1 = signature2) ∧
  (_disk_cache_filename sound_data signature1 self1 =
     _disk_cache_filename sound_data signature2 self2 →
   (stamp1 = stamp2 ∧ signature1 = signature2) ∨
   (raw1 ≠ raw2 ∧ Sha1.hexdigest raw1 = Sha1.hexdigest raw2)) ∧
  (same_audio_fields (compressor_settings self1) (compressor_settings self2) →
   stamp1 = stamp2 →
   _disk_cache_filename sound_data (_compressor_signature self1) self1 =
     _disk_cache_filename sound_data (_compressor_signature self2) self2).
Proof.
  intros Hdir stamp1 stamp2 raw1 raw2.
  split; [apply disk_cache_filename_unfold|].
  split; [reflexivity|].
  split.
  { intros Hstat. unfold stamp1, stat_stamp. by rewrite Hstat. }
  assert (raw1 = raw2 ↔ stamp1 = stamp2 ∧ signature1 = signature2) as Hraw.
  { split; [apply raw_key_inj|].
    intros [Hst ->]. unfold raw1, raw2, raw_key. fold stamp1 stamp2. by rewrite Hst. }
  split; [exact Hraw|]. split.
  - intros Hname. apply (disk_cache_filename_digest _ _ _ _ _ Hdir) in Hname.
    fold raw1 raw2 in Hname.
    destruct (decide (raw1 = raw2)) as [Heq|Hne]; [left; by apply Hraw | right; done].
  - intros Hsame Hst.
    rewrite !disk_cache_filename_unfold, Hdir. unfold raw_key. fold stamp1 stamp2.
    by rewrite Hst, (signature_same_fields self1 self2 Hsame).
Qed.

Lemma disk_cache_key_witness :
  _disk_cache_filename example_item (_compressor_signature example_window) example_window =
  "/app/.processed_cache/2990f7ef10f2f69bbce7a584f1b187f1028e9917.wav".
Proof.
  refine (eq_trans
    (proj1 (disk_cache_key example_item (_compressor_signature example_window)
              (_compressor_signature example_window) example_window example_window _)) _).
  - reflexivity.
  - vm_compute. reflexivity.
Defined.

(** ** Settings mutation and cache invalidation *)

Section InvalidationFacts.
Implicit Types (self : Window) (name p : string).

(** Removing one listed file leaves the settings, the memory cache and the
    directory alone, and may only take files away. *)
Lemma remove_cache_file_frame self name :
  let self' := remove_cache_file self name in
  compressor_settings self' = compressor_settings self ∧
  processed_cache self' = processed_cache self ∧
  processed_cache_dir self' = processed_cache_dir self ∧
  (∀ p, cache_files (world self') !! p = None ∨
        cache_files (world self') !! p = cache_files (world self) !! p).
Proof.
  unfold remove_cache_file, os_remove.
  destruct (ends_with ".wav" (lower name)); [|by auto].
  destruct (cache_files (world self) !! path_join (processed_cache_dir self) name)
    as [f|] eqn:Hf; [|by auto].
  destruct (locked f); [by auto|]. simpl. repeat split; try done.
  intros p. destruct (decide (p = path_join (processed_cache_dir self) name)) as [->|Hne].
  - left. apply lookup_delete_eq.
  - right. by apply lookup_delete_ne.
Qed.

Lemma remove_cache_file_removes self name (f : CacheFile) :
  ends_with ".wav" (lower name) = true →
  cache_files (world self) !! path_join (processed_cache_dir self) name = Some f →
  locked f = false →
  cache_files (world (remove_cache_file self name))
    !! path_join (processed_cache_dir self) name = None.
Proof.
  intros Hwav Hf Hunlocked. unfold remove_cache_file, os_remove.
  rewrite Hwav, Hf, Hunlocked. simpl. apply lookup_delete_eq.
Qed.

Lemma clear_loop_frame (names : list string) self :
  let self' := fold_left remove_cache_file names self in
  compressor_settings self' = compressor_settings self ∧
  processed_cache self' = processed_cache self ∧
  processed_cache_dir self' = processed_cache_dir self ∧
  (∀ p, cache_files (world self') !! p = None ∨
        cache_files (world self') !! p = cache_files (world self) !! p).
Proof.
  revert self. induction names as [|name names IH]; intros self; simpl; [by auto|].
  destruct (IH (remove_cache_file self name)) as (Hs & Hc & Hd & Hfiles).
  destruct (remove_cache_file_frame self name) as (Hs1 & Hc1 & Hd1 & Hfiles1).
  repeat split; [congruence..|].
  intros p. destruct (Hfiles p) as [Hnone|Hsame]; [by left|].
  rewrite Hsame. apply Hfiles1.
Qed.

Lemma clear_loop_removes (names : list string) self name (f : CacheFile) :
  name ∈ names →
  ends_with ".wav" (lower name) = true →
  cache_files (world self) !! path_join (processed_cache_dir self) name = Some f →
  locked f = false →
  cache_files (world (fold_left remove_cache_file names self))
    !! path_join (processed_cache_dir self) name = None.
Proof.
  intros Hin Hwav. revert self.
  induction names as [|n names IH]; intros self Hf Hunlocked; [by apply elem_of_nil in Hin|].
  simpl.
  destruct (remove_cache_file_frame self n) as (_ & _ & Hd1 & Hfiles1).
  destruct (clear_loop_frame names (remove_cache_file self n)) as (_ & _ & _ & Hfiles).
  destruct (Hfiles1 (path_join (processed_cache_dir self) name)) as [Hnone|Hsame].
  - destruct (Hfiles (path_join (processed_cache_dir self) name)) as [?|Hrest]; [done|].
    by rewrite Hrest.
  - apply elem_of_cons in Hin as [->|Hin].
    + destruct (Hfiles (path_join (processed_cache_dir self) n)) as [?|Hrest]; [done|].
      rewrite Hrest. by eapply remove_cache_file_removes.
    + rewrite <-Hd1. apply IH; [done| |done]. by rewrite Hd1, Hsame.
Qed.

Lemma strip_prefix_app (pre s rest : string) :
  strip_prefix pre s = Some rest → s = pre +:+ rest.
Proof.
  revert s. induction pre as [|a pre IH]; intros s; simpl.
  - by intros [= ->].
  - destruct s as [|b s]; [done|].
    destruct (Ascii.eqb_spec a b) as [->|]; [|done].
    intros Hs. apply IH in Hs. by rewrite Hs.
Qed.

(** A path directly in a directory is what [os.path.join] makes of the
    directory and the entry's name. *)
Lemma entry_name_join (dir p name : string) :
  entry_name dir p = Some name → path_join dir name = p.
Proof.
  unfold entry_name.
  destruct (strip_prefix (dir_prefix dir) p) as [rest|] eqn:Hstrip; [|done].
  destruct (String.eqb rest "" || has_slash rest) eqn:Hbad; [done|].
  intros [= <-]. apply strip_prefix_app in Hstrip. rewrite Hstrip.
  apply path_join_relative.
  apply orb_false_iff in Hbad as [_ Hslash]. unfold starts_with.
  destruct rest as [|c rest]; [done|]. cbn [has_slash] in Hslash.
  apply orb_false_iff in Hslash as [Hc _].
  change (String.prefix "/" (String c rest))
    with (if ascii_dec "/" c then String.prefix "" rest else false).
  destruct (ascii_dec "/" c) as [<-|]; [|done].
  by rewrite Ascii.eqb_refl in Hc.
Qed.

Lemma clear_disk_cache_frame self :
  let self' := _clear_disk_cache self in
  compressor_settings self' = compressor_settings self ∧
  processed_cache self' = processed_cache self ∧
  processed_cache_dir self' = processed_cache_dir self ∧
  (∀ p, cache_files (world self') !! p = None ∨
        cache_files (world self') !! p = cache_files (world self) !! p).
Proof.
  unfold _clear_disk_cache, os_listdir.
  destruct (listdir_fails (world self)); [by auto|]. apply clear_loop_frame.
Qed.

(** [_clear_disk_cache] removes every [.wav] file of the cache directory
    that [os.remove] can remove, when the directory can be listed. *)
Lemma clear_disk_cache_removes self p name (f : CacheFile) :
  listdir_fails (world self) = false →
  entry_name (processed_cache_dir self) p = Some name →
  ends_with ".wav" (lower name) = true →
  cache_files (world self) !! p = Some f →
  locked f = false →
  cache_files (world (_clear_disk_cache self)) !! p = None.
Proof.
  intros Hlist Hname Hwav Hf Hunlocked.
  unfold _clear_disk_cache, os_listdir. rewrite Hlist.
  pose proof (entry_name_join _ _ _ Hname) as Hjoin. rewrite <-Hjoin.
  eapply clear_loop_removes; [|done|by rewrite Hjoin|done].
  apply list_elem_of_omap. exists (p, f). split; [|done].
  by apply elem_of_map_to_list.
Qed.

Lemma save_settings_frame self :
  let self' := save_settings self in
  compressor_settings self' = compressor_settings self ∧
  processed_cache self' = processed_cache self ∧
  processed_cache_dir self' = processed_cache_dir self ∧
  cache_files (world self') = cache_files (world self).
Proof. unfold save_settings. by destruct (settings_open_fails (world self)). Qed.

End InvalidationFacts.



(** C7 (as stated, the claim fails). Switching the compressor off changes
    the settings and neither bumps [revision] nor clears a cache: the
    processed clip is still in the memory cache and on disk; and
    [_set_compressor_attr] stores a ratio of 0 as it is, which breaks
    [ratio >= 1]. *)
Lemma mutation_without_clamp_or_invalidation :
  (let self' := on_compressor_enabled_toggled false busy_window in
   enabled (compressor_settings busy_window) = true ∧
   enabled (compressor_settings self') = false ∧
   revision (compressor_settings self') = revision (compressor_settings busy_window) ∧
   keys (processed_cache self') =
     [("beep", "ig=0.000|th=-18.000|ra=4.000|at=10.000|re=120.000|mk=0.000|ce=-1.000")] ∧
   cache_files (world self')
     !! "/app/.processed_cache/2990f7ef10f2f69bbce7a584f1b187f1028e9917.wav" =
     Some (mkCacheFile (Some (SoundItem.sound example_item)) false)) ∧
  (let self' := _set_compressor_attr a_ratio (f64_of_Z 0) busy_window in
   ratio (compressor_settings self') = f64_of_Z 0 ∧
   ¬ settings_valid (compressor_settings self')).
Proof.
  split; intros self'; conjs; try (vm_compute; reflexivity).
  vm_compute. intros [Hratio _]. discriminate.
Qed.

(** C7 (amended). A dial mutation goes through [_set_compressor_attr],
    which stores the supplied value as it is, leaves the other fields,
    adds one to [revision], empties the memory cache (keeping its
    capacity), and removes from the cache directory every [.wav] file
    that can be removed, taking no other file away; if the value is in
    the field's domain the invariants still hold afterwards. Toggling
    [enabled] changes [enabled] only: [revision] and both caches stay. *)
Theorem set_compressor_attr_invalidates (attr : dial_attr) (value : spec_float)
    (self : Window) :
  let self' := _set_compressor_attr attr value self in
  let s := compressor_settings self in
  let s' := compressor_settings self' in
  (self' = on_compressor_dial_changed attr value self ∨ _compressor_updating_ui self = true) ∧
  getattr s' attr = value ∧
  (∀ a, a ≠ attr → getattr s' a = getattr s a) ∧
  enabled s' = enabled s ∧
  cache_max_items s' = cache_max_items s ∧
  revision s' = revision s + 1 ∧
  _store (processed_cache self') = [] ∧
  max_items (processed_cache self') = max_items (processed_cache self) ∧
  (∀ p name f,
     listdir_fails (world self) = false →
     entry_name (processed_cache_dir self) p = Some name →
     ends_with ".wav" (lower name) = true →
     cache_files (world self) !! p = Some f →
     locked f = false →
     cache_files (world self') !! p = None) ∧
  (∀ p, cache_files (world self') !! p = None ∨
        cache_files (world self') !! p = cache_files (world self) !! p) ∧
  (settings_valid s → in_domain attr value → settings_valid s') ∧
  (∀ checked,
     _compressor_updating_ui self = false →
     let toggled := on_compressor_enabled_toggled checked self in
     enabled (compressor_settings toggled) = checked ∧
     same_audio_fields (compressor_settings toggled) s ∧
     cache_max_items (compressor_settings toggled) = cache_max_items s ∧
     revision (compressor_settings toggled) = revision s ∧
     processed_cache toggled = processed_cache self ∧
     cache_files (world toggled) = cache_files (world self)).
Proof.
  intros self' s s'.
  set (self1 := set_settings (setattr s attr value) self).
  set (self2 := _clear_processed_cache true self1).
  set (self3 := _clear_disk_cache self2).
  assert (self' = save_settings self3) as Hself' by reflexivity.
  destruct (save_settings_frame self3) as (Hs4 & Hc4 & Hd4 & Hf4).
  destruct (clear_disk_cache_frame self2) as (Hs3 & Hc3 & Hd3 & Hf3).
  fold self3 in Hs3, Hc3, Hd3, Hf3.
  assert (s' = compressor_settings self2) as Hs'.
  { unfold s'. rewrite Hself'. congruence. }
  assert (processed_cache self' = processed_cache self2) as Hc'.
  { rewrite Hself'. congruence. }
  assert (cache_files (world self') = cache_files (world self3)) as Hf'.
  { by rewrite Hself'. }
  split.
  { unfold on_compressor_dial_changed.
    destruct (_compressor_updating_ui self); [by right | by left]. }
  split; [rewrite Hs'; by destruct attr|].
  split; [intros a Ha; rewrite Hs'; by destruct attr, a|].
  split; [rewrite Hs'; by destruct attr|].
  split; [rewrite Hs'; by destruct attr|].
  split; [rewrite Hs'; by destruct attr|].
  split; [by rewrite Hc'|].
  split; [by rewrite Hc'|].
  split.
  { intros p name f Hlist Hname Hwav Hf Hunlocked. rewrite Hf'.
    by apply (clear_disk_cache_removes self2 p name f). }
  split.
  { intros p. rewrite Hf'. apply Hf3. }
  split.
  { rewrite Hs'. unfold settings_valid, in_domain.
    intros (Hra & Hat & Hre & Hcm) Hdom. by destruct attr. }
  intros checked Hui toggled.
  destruct (toggle_frame checked self) as (Hsame & Hcm & Hrev & Hcache & _ & _ & Hfiles & _).
  fold toggled in Hsame, Hcm, Hrev, Hcache, Hfiles.
  split; [|done].
  unfold toggled, on_compressor_enabled_toggled, save_settings. rewrite Hui. simpl.
  by destruct (settings_open_fails (world self)).
Qed.

(** ** Sample conversion *)

Section ConversionFacts.

Lemma mapM_repeat {A B : Type} (f : A → option B) (x : A) (y : B) (n : nat) :
  f x = Some y → mapM f (repeat x n) = Some (repeat y n).
Proof.
  intros Hf. induction n as [|n IH]; simpl; [done|].
  by rewrite Hf, IH.
Qed.

(** A buffer of [n] samples [x] of an integer format comes back as [n]
    samples [y] when a buffer of one sample does. *)
Lemma roundtrip_repeat (d : int_dtype) (x y : Z) (n : nat) :
  sound_roundtrip (IntArray d [x]) = Some (IntArray d [y]) →
  sound_roundtrip (IntArray d (repeat x n)) = Some (IntArray d (repeat y n)).
Proof.
  unfold sound_roundtrip, _sound_to_float, _float_to_sound.
  destruct d as [bits|bits]; rewrite map_repeat; cbn [map mapM].
  - destruct (float_to_unsigned bits (unsigned_to_float bits x)) as [z|] eqn:Hz;
      [|discriminate].
    rewrite (mapM_repeat _ _ z n Hz). by intros [= <-].
  - destruct (float_to_signed bits (signed_to_float bits x)) as [z|] eqn:Hz;
      [|discriminate].
    rewrite (mapM_repeat _ _ z n Hz). by intros [= <-].
Qed.

Lemma roundtrip_repeat_float (x : spec_float) (n : nat) :
  sound_roundtrip (Float32Array [x]) = Some (Float32Array [x]) →
  sound_roundtrip (Float32Array (repeat x n)) = Some (Float32Array (repeat x n)).
Proof.
  unfold sound_roundtrip, _sound_to_float, _float_to_sound. simpl.
  intros [= Hx]. by rewrite map_repeat, Hx.
Qed.

End ConversionFacts.


(** C9 (as stated, the claim fails). A 16-bit signed buffer at full scale
    does not come back: [32767] returns as [32766], and [-32768], which
    is normalised to exactly [-1.0], returns as [-32767]. *)
Lemma signed_full_scale_not_reproduced :
  sound_roundtrip (IntArray (SInt 16) (repeat (iinfo_max (SInt 16)) 4)) =
    Some (IntArray (SInt 16) (repeat 32766 4)) ∧
  sound_roundtrip (IntArray (SInt 16) (repeat (iinfo_max (SInt 16)) 4)) ≠
    Some (IntArray (SInt 16) (repeat (iinfo_max (SInt 16)) 4)) ∧
  (_sound_to_float (IntArray (SInt 16) (repeat (iinfo_min (SInt 16)) 4))).1 =
    repeat (f32_of_Z (-1)) 4 ∧
  sound_roundtrip (IntArray (SInt 16) (repeat (iinfo_min (SInt 16)) 4)) =
    Some (IntArray (SInt 16) (repeat (-32767) 4)) ∧
  sound_roundtrip (IntArray (SInt 16) (repeat (iinfo_min (SInt 16)) 4)) ≠
    Some (IntArray (SInt 16) (repeat (iinfo_min (SInt 16)) 4)).
Proof. conjs; vm_compute; (reflexivity || discriminate). Qed.

(** C9 (amended). Normalising and denormalising reproduces exactly: an
    all-zero buffer of every format (unsigned and signed 8 and 16 bit,
    signed 32 bit, float); an all-maximum buffer of the unsigned formats;
    and an all [1.0] or all [-1.0] float buffer. In the signed 8 and 16 bit
    formats an all-maximum buffer comes back one step below the maximum,
    and an all-minimum buffer comes back as minus the maximum. *)
Theorem constant_buffer_roundtrip (n : nat) :
  (∀ d, d ∈ mixer_int_formats →
     sound_roundtrip (IntArray d (repeat 0 n)) = Some (IntArray d (repeat 0 n))) ∧
  sound_roundtrip (Float32Array (repeat (S754_zero false) n)) =
    Some (Float32Array (repeat (S754_zero false) n)) ∧
  (∀ d, d ∈ [UInt 8; UInt 16] →
     sound_roundtrip (IntArray d (repeat (iinfo_max d) n)) =
       Some (IntArray d (repeat (iinfo_max d) n))) ∧
  sound_roundtrip (Float32Array (repeat (f32_of_Z 1) n)) =
    Some (Float32Array (repeat (f32_of_Z 1) n)) ∧
  sound_roundtrip (Float32Array (repeat (f32_of_Z (-1)) n)) =
    Some (Float32Array (repeat (f32_of_Z (-1)) n)) ∧
  (∀ d, d ∈ [SInt 8; SInt 16] →
     sound_roundtrip (IntArray d (repeat (iinfo_max d) n)) =
       Some (IntArray d (repeat (iinfo_max d - 1) n)) ∧
     sound_roundtrip (IntArray d (repeat (iinfo_min d) n)) =
       Some (IntArray d (repeat (- iinfo_max d) n))).
Proof.
  conjs;
    try (intros d Hd; unfold mixer_int_formats in Hd;
         repeat (apply elem_of_cons in Hd as [->|Hd]);
         try (by apply elem_of_nil in Hd); conjs);
    try (apply roundtrip_repeat; vm_compute; reflexivity);
    try (apply roundtrip_repeat_float; vm_compute; reflexivity).
Qed.

(** ** The gain computer *)

Section GainFacts.
Local Open Scope R_scope.




End GainFacts.

Section GainFacts64.
Variable math_exp : spec_float → result spec_float.
Variable math_log10 : spec_float → result spec_float.
Variable float_pow : spec_float → spec_float → result spec_float.
Variable nep50 : bool.






End GainFacts64.



(** ** Playback *)






(** * Further properties *)

(** ** The memory cache, continued *)

Section CacheInvariants.
Context {K V : Type} `{EqDecision K}.
Implicit Types (d : odict K V) (key : K) (c : ProcessedSoundCache K V).

Lemma od_remove_subseteq key key' d : key' ∈ (od_remove key d).*1 → key' ∈ d.*1.
Proof.
  induction d as [|[k v] d IH]; simpl; [done|].
  destruct (decide (k = key)); [by right|].
  simpl. intros [->|Hin]%elem_of_cons; [by left | right; by apply IH].
Qed.

Lemma od_remove_NoDup key d : NoDup d.*1 → NoDup (od_remove key d).*1.
Proof.
  induction d as [|[k v] d IH]; simpl; [done|].
  intros [Hk Hd]%NoDup_cons. destruct (decide (k = key)); [done|].
  simpl. apply NoDup_cons. split; [|by apply IH].
  intros Hin. by apply Hk, (od_remove_subseteq key).
Qed.

Lemma od_remove_not_in key d : NoDup d.*1 → key ∉ (od_remove key d).*1.
Proof.
  induction d as [|[k v] d IH]; simpl; [intros _; apply not_elem_of_nil|].
  intros [Hk Hd]%NoDup_cons. destruct (decide (k = key)) as [->|Hne]; [done|].
  simpl. rewrite not_elem_of_cons. split; [done | by apply IH].
Qed.

Lemma od_remove_length key d :
  key ∈ d.*1 → S (length (od_remove key d)) = length d.
Proof.
  induction d as [|[k v] d IH]; simpl; [by intros ?%elem_of_nil|].
  destruct (decide (k = key)) as [->|Hne]; [done|].
  intros [?|Hin]%elem_of_cons; [done|]. simpl. by rewrite IH.
Qed.

Lemma od_get_Some_in key d (v : V) : od_get key d = Some v → key ∈ d.*1.
Proof.
  intros Hget. destruct (decide (key ∈ d.*1)) as [|Hnot]; [done|].
  apply od_get_None in Hnot. congruence.
Qed.

Lemma od_get_app_l key d1 d2 (v : V) :
  od_get key d1 = Some v → od_get key (d1 ++ d2) = Some v.
Proof.
  induction d1 as [|[k w] d1 IH]; simpl; [done|].
  destruct (decide (k = key)); [done | apply IH].
Qed.

Lemma od_get_app_r key d1 d2 :
  key ∉ d1.*1 → od_get key (d1 ++ d2) = od_get key d2.
Proof.
  induction d1 as [|[k w] d1 IH]; simpl; [done|].
  rewrite not_elem_of_cons. intros [Hne Hd1].
  rewrite decide_False by done. by apply IH.
Qed.

Lemma od_get_remove_ne key key' d :
  key' ≠ key → od_get key' (od_remove key d) = od_get key' d.
Proof.
  intros Hne. induction d as [|[k w] d IH]; simpl; [done|].
  destruct (decide (k = key)) as [->|Hk]; simpl.
  - by rewrite decide_False.
  - destruct (decide (k = key')); [done | apply IH].
Qed.

Lemma od_remove_last key (v : V) d :
  key ∉ d.*1 → od_remove key (d ++ [(key, v)]) = d.
Proof.
  induction d as [|[k w] d IH]; simpl.
  - intros _. by rewrite decide_True.
  - rewrite not_elem_of_cons. intros [Hne Hd].
    rewrite decide_False by done. by rewrite IH.
Qed.

Lemma not_in_drop_keys key (n : nat) d : key ∉ d.*1 → key ∉ (drop n d).*1.
Proof.
  intros Hnot Hin. apply Hnot. rewrite fmap_drop in Hin.
  apply list_elem_of_lookup in Hin as [i Hi]. rewrite lookup_drop in Hi.
  by eapply list_elem_of_lookup_2.
Qed.

(** What [put] leaves in a cache of capacity at least 1 with distinct
    keys: the entries that were there, without the one of [key] and
    without the oldest ones beyond the capacity, then the new entry. *)
Lemma put_shape key (v : V) c :
  1 ≤ max_items c → NoDup (keys c) →
  let n := (S (length (od_remove key (_store c))) - Z.to_nat (max_items c))%nat in
  put key v c =
    Ok {| max_items := max_items c;
          _store := drop n (od_remove key (_store c)) ++ [(key, v)] |} ∧
  key ∉ (drop n (od_remove key (_store c))).*1.
Proof.
  intros Hmax Hnd n. split.
  - rewrite put_newest by lia. do 2 f_equal. unfold newest.
    rewrite length_app. simpl length.
    rewrite drop_app_le by lia. do 2 f_equal. unfold n. lia.
  - by apply not_in_drop_keys, od_remove_not_in.
Qed.

End CacheInvariants.

(** X1. [ProcessedSoundCache(n)] is well formed, and on a well-formed
    cache [put], [get] and [set_capacity] return (they do not raise) and
    leave a well-formed cache, as does [clear]: the capacity stays at
    least 1, the keys distinct, and the size within the capacity. *)
Theorem cache_operations_keep_wf {K V : Type} `{EqDecision K}
    (c : ProcessedSoundCache K V) (key : K) (v : V) (n : Z) :
  cache_wf c →
  cache_wf (__init__ (K:=K) (V:=V) n) ∧
  (∃ c', put key v c = Ok c' ∧ cache_wf c') ∧
  (∃ r c', get key c = Ok (r, c') ∧ cache_wf c') ∧
  (∃ c', set_capacity n c = Ok c' ∧ cache_wf c') ∧
  cache_wf (clear c).
Proof.
  intros (Hmax & Hnd & Hlen). unfold cache_wf, keys in *. conjs.
  - apply py_max_int_valid.
  - apply NoDup_nil_2.
  - simpl. pose proof (py_max_int_valid 1 n). lia.
  - destruct (put_shape key v c Hmax Hnd) as [Hput Hnot].
    eexists. split; [exact Hput|]. cbn [max_items _store]. conjs; [done| |].
    + rewrite fmap_app. apply NoDup_app. conjs.
      * rewrite fmap_drop.
        apply (sublist_NoDup _ _ (od_remove_NoDup key _ Hnd)), sublist_drop.
      * intros k Hk [->|?%elem_of_nil]%elem_of_cons; done.
      * apply NoDup_singleton.
    + rewrite length_app, length_drop. simpl. lia.
  - unfold get, od_move_to_end.
    destruct (od_get key (_store c)) as [item|] eqn:Hget.
    + eexists _, _. split; [reflexivity|]. cbn [max_items _store]. conjs; [done| |].
      * rewrite fmap_app. apply NoDup_app. conjs.
        -- by apply od_remove_NoDup.
        -- intros k Hk [->|?%elem_of_nil]%elem_of_cons; [|done].
           by apply (od_remove_not_in key (_store c) Hnd).
        -- apply NoDup_singleton.
      * rewrite length_app. simpl.
        pose proof (od_remove_length key (_store c) (od_get_Some_in _ _ _ Hget)). lia.
    + eexists _, _. split; [reflexivity|]. done.
  - unfold set_capacity. pose proof (py_max_int_valid 1 n) as Hm.
    rewrite evict_newest by lia. eexists. split; [reflexivity|].
    cbn [max_items _store]. conjs; [done| |].
    + unfold newest. rewrite fmap_drop. apply (sublist_NoDup _ _ Hnd), sublist_drop.
    + pose proof (newest_length (py_max_int 1 n) (_store c) Hm). lia.
  - done.
  - apply NoDup_nil_2.
  - simpl. lia.
Qed.

Lemma cache_operations_keep_wf_witness :
  ∃ c', put "C" 3 {| max_items := 2; _store := [("A", 1); ("B", 2)] |} = Ok c' ∧ cache_wf c'.
Proof.
  refine (proj1 (proj2 (cache_operations_keep_wf
            {| max_items := 2; _store := [("A", 1); ("B", 2)] |} "C" 3 0 _))).
  unfold cache_wf. conjs; [simpl; lia | | simpl; lia].
  apply (bool_decide_unpack _). vm_compute. exact I.
Defined.

(** X2. On a well-formed cache, [get] right after [put] returns the sound
    that was put, and leaves the cache exactly as [put] left it. *)
Theorem put_then_get {K V : Type} `{EqDecision K}
    (c : ProcessedSoundCache K V) (key : K) (v : V) :
  cache_wf c →
  ∃ c', put key v c = Ok c' ∧ get key c' = Ok (Some v, c').
Proof.
  intros (Hmax & Hnd & _).
  destruct (put_shape key v c Hmax Hnd) as [Hput Hnot].
  eexists. split; [exact Hput|].
  unfold get, od_move_to_end. cbn [_store max_items].
  rewrite od_get_app_r by done. simpl. rewrite decide_True by done. simpl.
  by rewrite od_remove_last.
Qed.

Lemma put_then_get_witness :
  ∃ c', put "B" 9 {| max_items := 2; _store := [("A", 1); ("B", 2)] |} = Ok c' ∧
        get "B" c' = Ok (Some 9, c').
Proof.
  apply (put_then_get {| max_items := 2; _store := [("A", 1); ("B", 2)] |} "B" 9).
  unfold cache_wf. conjs; [simpl; lia | | simpl; lia].
  apply (bool_decide_unpack _). vm_compute. exact I.
Defined.

(** X3. [put] of a key the cache does not hold appends the entry; when the
    cache is full it evicts exactly one entry, the least recently used,
    and when it is not full it evicts none. *)
Theorem put_new_key {K V : Type} `{EqDecision K}
    (c : ProcessedSoundCache K V) (key : K) (v : V) :
  cache_wf c →
  key ∉ keys c →
  (Z.of_nat (length (_store c)) < max_items c →
     put key v c = Ok {| max_items := max_items c; _store := _store c ++ [(key, v)] |}) ∧
  (Z.of_nat (length (_store c)) = max_items c →
     put key v c =
       Ok {| max_items := max_items c; _store := drop 1 (_store c) ++ [(key, v)] |}).
Proof.
  intros (Hmax & Hnd & Hlen) Hkey.
  destruct (put_shape key v c Hmax Hnd) as [Hput _].
  rewrite od_remove_absent in Hput by done. split; intros Hsize; rewrite Hput.
  - replace (S (length (_store c)) - Z.to_nat (max_items c))%nat with 0%nat by lia. done.
  - replace (S (length (_store c)) - Z.to_nat (max_items c))%nat with 1%nat by lia. done.
Qed.

Lemma put_new_key_witness :
  put "C" 3 {| max_items := 2; _store := [("A", 1); ("B", 2)] |} =
  Ok {| max_items := 2; _store := [("B", 2); ("C", 3)] |}.
Proof.
  refine (proj2 (put_new_key {| max_items := 2; _store := [("A", 1); ("B", 2)] |} "C" 3
                   _ _) _).
  - unfold cache_wf. conjs; [simpl; lia | | simpl; lia].
    apply (bool_decide_unpack _). vm_compute. exact I.
  - apply (bool_decide_unpack _). vm_compute. exact I.
  - reflexivity.
Defined.

(** X4. [put] of a key the cache already holds replaces its sound and
    makes it the most recent entry; nothing is evicted, the size is the
    same, and every other key keeps its sound. *)
Theorem put_existing_key {K V : Type} `{EqDecision K}
    (c : ProcessedSoundCache K V) (key : K) (v : V) :
  cache_wf c →
  key ∈ keys c →
  ∃ c',
    put key v c = Ok c' ∧
    _store c' = od_remove key (_store c) ++ [(key, v)] ∧
    length (_store c') = length (_store c) ∧
    ∀ key', key' ≠ key → od_get key' (_store c') = od_get key' (_store c).
Proof.
  intros (Hmax & Hnd & Hlen) Hkey.
  destruct (put_shape key v c Hmax Hnd) as [Hput _].
  pose proof (od_remove_length key (_store c) Hkey) as Hrem.
  replace (S (length (od_remove key (_store c))) - Z.to_nat (max_items c))%nat
    with 0%nat in Hput by lia.
  eexists. split; [exact Hput|]. cbn [_store]. rewrite drop_0. conjs; [done| |].
  - rewrite length_app. simpl. lia.
  - intros key' Hne.
    destruct (od_get key' (od_remove key (_store c))) as [w|] eqn:Hget.
    + rewrite (od_get_app_l _ _ _ _ Hget). rewrite <-Hget. by apply od_get_remove_ne.
    + rewrite od_get_app_r by (by apply od_get_None). simpl.
      rewrite decide_False by done. rewrite <-Hget. by apply od_get_remove_ne.
Qed.

Lemma put_existing_key_witness :
  ∃ c', put "A" 9 {| max_items := 2; _store := [("A", 1); ("B", 2)] |} = Ok c' ∧
        _store c' = [("B", 2); ("A", 9)].
Proof.
  destruct (put_existing_key {| max_items := 2; _store := [("A", 1); ("B", 2)] |} "A" 9)
    as (c' & Hput & Hstore & _).
  - unfold cache_wf. conjs; [simpl; lia | | simpl; lia].
    apply (bool_decide_unpack _). vm_compute. exact I.
  - apply (bool_decide_unpack _). vm_compute. exact I.
  - exists c'. split; [exact Hput | exact Hstore].
Defined.

(** X5. A [get] hit protects the entry from the next eviction: in a
    well-formed cache of capacity at least 2, after [get(key)] finds the
    key, the [put] of a new key still leaves [key] in the cache with its
    sound, even when the cache was full and [key] the oldest entry. *)
Theorem get_protects_from_eviction {K V : Type} `{EqDecision K}
    (c : ProcessedSoundCache K V) (key new_key : K) (w : V) :
  cache_wf c →
  2 ≤ max_items c →
  key ∈ keys c →
  new_key ∉ keys c →
  ∃ v c1 c2,
    get key c = Ok (Some v, c1) ∧
    put new_key w c1 = Ok c2 ∧
    od_get key (_store c2) = Some v.
Proof.
  intros (Hmax & Hnd & Hlen) Hcap Hkey Hnew. unfold keys in *.
  destruct (od_get key (_store c)) as [v|] eqn:Hget;
    [|by apply od_get_None in Hget].
  pose proof (od_remove_length key (_store c) Hkey) as Hrem.
  pose proof (od_remove_not_in key (_store c) Hnd) as Hnot.
  assert (new_key ≠ key) as Hne by (by intros ->).
  set (c1 := {| max_items := max_items c;
                _store := od_remove key (_store c) ++ [(key, v)] |}).
  assert (get key c = Ok (Some v, c1)) as Hget1.
  { unfold get, od_move_to_end. by rewrite Hget. }
  assert (new_key ∉ (_store c1).*1) as Hnew1.
  { cbn [c1 _store]. rewrite fmap_app, not_elem_of_app. split.
    - intros Hin. by apply Hnew, (od_remove_subseteq key).
    - simpl. rewrite not_elem_of_cons. split; [done | apply not_elem_of_nil]. }
  assert (NoDup (keys c1)) as Hnd1.
  { unfold keys. cbn [c1 _store]. rewrite fmap_app. apply NoDup_app. conjs.
    - by apply od_remove_NoDup.
    - intros k Hk [->|?%elem_of_nil]%elem_of_cons; done.
    - apply NoDup_singleton. }
  destruct (put_shape new_key w c1 Hmax Hnd1) as [Hput _].
  rewrite (od_remove_absent new_key (_store c1) Hnew1) in Hput.
  exists v, c1. eexists. split; [exact Hget1|]. split; [exact Hput|].
  cbn [_store c1 max_items]. rewrite length_app. simpl length.
  rewrite drop_app_le by lia.
  rewrite <-app_assoc, od_get_app_r by (by apply not_in_drop_keys).
  simpl. by rewrite decide_True.
Qed.

Lemma get_protects_from_eviction_witness :
  ∃ v c1 c2,
    get "A" {| max_items := 2; _store := [("A", 1); ("B", 2)] |} = Ok (Some v, c1) ∧
    put "C" 3 c1 = Ok c2 ∧
    od_get "A" (_store c2) = Some v.
Proof.
  apply (get_protects_from_eviction
           {| max_items := 2; _store := [("A", 1); ("B", 2)] |} "A" "C" 3).
  - unfold cache_wf. conjs; [simpl; lia | | simpl; lia].
    apply (bool_decide_unpack _). vm_compute. exact I.
  - simpl. lia.
  - apply (bool_decide_unpack _). vm_compute. exact I.
  - apply (bool_decide_unpack _). vm_compute. exact I.
Defined.

(** X6. [set_capacity(n)] never raises: the capacity becomes [max(1, n)]
    and the most recent entries up to that number stay, in order. A
    capacity of zero or less therefore leaves the most recent entry of a
    non-empty cache, not an empty cache. *)
Theorem set_capacity_keeps_newest {K V : Type} `{EqDecision K}
    (c : ProcessedSoundCache K V) (n : Z) :
  set_capacity n c =
    Ok {| max_items := Z.max 1 n;
          _store := drop (length (_store c) - Z.to_nat (Z.max 1 n)) (_store c) |} ∧
  (∀ kv, n ≤ 1 → last (_store c) = Some kv →
     set_capacity n c = Ok {| max_items := 1; _store := [kv] |}).
Proof.
  assert (py_max_int 1 n = Z.max 1 n) as Hmaxeq.
  { unfold py_max_int. destruct (Z.ltb_spec 1 n); lia. }
  assert (set_capacity n c =
          Ok {| max_items := Z.max 1 n;
                _store := drop (length (_store c) - Z.to_nat (Z.max 1 n)) (_store c) |})
    as Heq.
  { unfold set_capacity. rewrite Hmaxeq, evict_newest by lia. reflexivity. }
  split; [exact Heq|].
  intros kv Hn Hlast. rewrite Heq. replace (Z.max 1 n) with 1 by lia.
  do 2 f_equal.
  destruct (_store c) as [|x l] using rev_ind; [done|].
  rewrite last_snoc in Hlast. injection Hlast as ->.
  rewrite length_app. simpl length.
  replace (length l + 1 - Z.to_nat 1)%nat with (length l + 0)%nat by lia.
  by rewrite drop_app_add.
Qed.

(** X7. [get] only reorders: whether it hits or misses, every key has the
    same sound in the cache after it as before, and the capacity is the
    same. *)
Theorem get_keeps_content {K V : Type} `{EqDecision K}
    (c : ProcessedSoundCache K V) (key : K) :
  cache_wf c →
  ∃ c',
    get key c = Ok (od_get key (_store c), c') ∧
    max_items c' = max_items c ∧
    ∀ key', od_get key' (_store c') = od_get key' (_store c).
Proof.
  intros (Hmax & Hnd & Hlen). unfold get, od_move_to_end.
  destruct (od_get key (_store c)) as [v|] eqn:Hget; [|by exists c].
  eexists. split; [reflexivity|]. cbn [max_items _store]. split; [done|].
  intros key'. destruct (decide (key' = key)) as [->|Hne].
  - rewrite od_get_app_r by (by apply od_remove_not_in).
    simpl. by rewrite decide_True.
  - destruct (od_get key' (od_remove key (_store c))) as [w|] eqn:Hget'.
    + rewrite (od_get_app_l _ _ _ _ Hget'). rewrite <-Hget'. by apply od_get_remove_ne.
    + rewrite od_get_app_r by (by apply od_get_None). simpl.
      rewrite decide_False by done. rewrite <-Hget'. by apply od_get_remove_ne.
Qed.

Lemma get_keeps_content_witness :
  ∃ c',
    get "A" {| max_items := 2; _store := [("A", 1); ("B", 2)] |} = Ok (Some 1, c') ∧
    od_get "B" (_store c') = Some 2.
Proof.
  destruct (get_keeps_content {| max_items := 2; _store := [("A", 1); ("B", 2)] |} "A")
    as (c' & Hget & _ & Hsame).
  - unfold cache_wf. conjs; [simpl; lia | | simpl; lia].
    apply (bool_decide_unpack _). vm_compute. exact I.
  - exists c'. split; [exact Hget | exact (Hsame "B")].
Defined.


(** ** The settings model, continued *)

Section SettingsMore.
Implicit Types (data : gmap string pyval) (s : CompressorSettings spec_float).

(** [compressor_settings_from_dict] reads its ten keys and nothing else. *)
Lemma from_dict_ext data1 data2 :
  (∀ key, key ∈ settings_keys → data1 !! key = data2 !! key) →
  compressor_settings_from_dict data1 = compressor_settings_from_dict data2.
Proof.
  intros Hsame. unfold compressor_settings_from_dict, dict_get_default.
  rewrite !Hsame by (apply (bool_decide_unpack _); vm_compute; exact I).
  reflexivity.
Qed.

(** The round trip of the settings model, for settings within the
    invariants. *)
Lemma from_dict_to_dict s :
  settings_valid s → 0 ≤ revision s →
  compressor_settings_from_dict (compressor_settings_to_dict s) = Ok s.
Proof.
  intros (Hratio & Hattack & Hrelease & Hitems) Hrev.
  destruct (to_dict_lookups s) as (He & Hig & Hth & Hra & Hat & Hre & Hmk & Hce & Hcm & Hrv).
  unfold compressor_settings_from_dict, dict_get_default.
  rewrite He, Hig, Hth, Hra, Hat, Hre, Hmk, Hce, Hcm, Hrv. cbn [_num py_float py_int bind py_bool].
  rewrite !py_max_float_ge, !py_max_int_ge by done.
  by destruct s.
Qed.

Lemma _num_non_numeric (v : option pyval) (fallback : pynum) :
  non_numeric v → _num v fallback = fallback.
Proof. by destruct v as [[]|]. Qed.

End SettingsMore.

(** X8. Loading is idempotent: the settings [compressor_settings_from_dict]
    returns for any dictionary are a fixed point of saving and loading
    again, whatever clamping or defaulting produced them. *)
Theorem from_dict_idempotent (data : gmap string pyval) (s : CompressorSettings spec_float) :
  compressor_settings_from_dict data = Ok s →
  compressor_settings_from_dict (compressor_settings_to_dict s) = Ok s.
Proof.
  intros Hload. destruct (from_dict_valid data s Hload) as [Hvalid Hrev].
  by apply from_dict_to_dict.
Qed.

Lemma from_dict_idempotent_witness :
  ∃ s,
    compressor_settings_from_dict
      {[ "compressor_ratio" := PFloat (S754_zero false);
         "compressor_revision" := PInt (-5) ]} = Ok s ∧
    compressor_settings_from_dict (compressor_settings_to_dict s) = Ok s.
Proof.
  eexists. split; [vm_compute; reflexivity|].
  eapply (from_dict_idempotent
            {[ "compressor_ratio" := PFloat (S754_zero false);
               "compressor_revision" := PInt (-5) ]}).
  vm_compute. reflexivity.
Defined.

(** X9. Keys other than the ten compressor keys are never read: adding,
    changing or removing any other key of the dictionary does not change
    what [compressor_settings_from_dict] returns or raises. *)
Theorem from_dict_ignores_other_keys (data : gmap string pyval) (key : string) (v : pyval) :
  key ∉ settings_keys →
  compressor_settings_from_dict (<[key := v]> data) = compressor_settings_from_dict data ∧
  compressor_settings_from_dict (delete key data) = compressor_settings_from_dict data.
Proof.
  intros Hkey. split; apply from_dict_ext; intros k Hk.
  - apply lookup_insert_ne. by intros ->.
  - apply lookup_delete_ne. by intros ->.
Qed.

Lemma from_dict_ignores_other_keys_witness :
  compressor_settings_from_dict {[ "overlap_audio" := PBool true ]} =
  compressor_settings_from_dict ∅.
Proof.
  refine (proj1 (from_dict_ignores_other_keys ∅ "overlap_audio" (PBool true) _)).
  apply (bool_decide_unpack _). vm_compute. exact I.
Defined.

(** X10. A numeric field whose key is missing or holds anything but a
    number ([None], a string such as ["4.0"], a list, a dictionary) takes
    its default, whatever the other keys hold, whenever
    [compressor_settings_from_dict] returns. When all nine numeric keys
    are so it does return, and returns the defaults, with [enabled] the
    truth value of what its key holds. *)
Theorem from_dict_non_numeric_is_default (data : gmap string pyval) :
  (∀ s, compressor_settings_from_dict data = Ok s →
     (non_numeric (data !! "compressor_input_gain_db") →
        input_gain_db s = input_gain_db DEFAULT_COMPRESSOR_SETTINGS) ∧
     (non_numeric (data !! "compressor_threshold_db") →
        threshold_db s = threshold_db DEFAULT_COMPRESSOR_SETTINGS) ∧
     (non_numeric (data !! "compressor_ratio") →
        ratio s = ratio DEFAULT_COMPRESSOR_SETTINGS) ∧
     (non_numeric (data !! "compressor_attack_ms") →
        attack_ms s = attack_ms DEFAULT_COMPRESSOR_SETTINGS) ∧
     (non_numeric (data !! "compressor_release_ms") →
        release_ms s = release_ms DEFAULT_COMPRESSOR_SETTINGS) ∧
     (non_numeric (data !! "compressor_makeup_gain_db") →
        makeup_gain_db s = makeup_gain_db DEFAULT_COMPRESSOR_SETTINGS) ∧
     (non_numeric (data !! "compressor_output_ceiling_db") →
        output_ceiling_db s = output_ceiling_db DEFAULT_COMPRESSOR_SETTINGS) ∧
     (non_numeric (data !! "compressor_cache_max_items") →
        cache_max_items s = cache_max_items DEFAULT_COMPRESSOR_SETTINGS) ∧
     (non_numeric (data !! "compressor_revision") →
        revision s = revision DEFAULT_COMPRESSOR_SETTINGS)) ∧
  ((∀ key, key ∈ numeric_keys → non_numeric (data !! key)) →
   compressor_settings_from_dict data =
     Ok (mkCompressorSettings
           (py_bool (dict_get_default data "compressor_enabled" (PBool true)))
           (input_gain_db DEFAULT_COMPRESSOR_SETTINGS)
           (threshold_db DEFAULT_COMPRESSOR_SETTINGS)
           (ratio DEFAULT_COMPRESSOR_SETTINGS)
           (attack_ms DEFAULT_COMPRESSOR_SETTINGS)
           (release_ms DEFAULT_COMPRESSOR_SETTINGS)
           (makeup_gain_db DEFAULT_COMPRESSOR_SETTINGS)
           (output_ceiling_db DEFAULT_COMPRESSOR_SETTINGS)
           (cache_max_items DEFAULT_COMPRESSOR_SETTINGS)
           (revision DEFAULT_COMPRESSOR_SETTINGS))).
Proof.
  split.
  - intros s. unfold compressor_settings_from_dict.
    repeat (match goal with
            | |- bind ?r _ = Ok _ → _ => destruct r as [?|?] eqn:?; simpl; [|discriminate]
            end).
    intros [= <-].
    cbn [input_gain_db threshold_db ratio attack_ms release_ms makeup_gain_db
         output_ceiling_db cache_max_items revision].
    conjs; intros Hnon; rewrite (_num_non_numeric _ _ Hnon) in *; simpl in *;
      simplify_eq; vm_compute; reflexivity.
  - intros Hnon. unfold compressor_settings_from_dict.
    rewrite !_num_non_numeric
      by (apply Hnon; apply (bool_decide_unpack _); vm_compute; exact I).
    reflexivity.
Qed.

Lemma from_dict_non_numeric_is_default_witness :
  ∃ s,
    compressor_settings_from_dict
      {[ "compressor_ratio" := PStr "8.0";
         "compressor_threshold_db" := PFloat (f64_of_Z (-30)) ]} = Ok s ∧
    ratio s = ratio DEFAULT_COMPRESSOR_SETTINGS ∧
    threshold_db s = f64_of_Z (-30).
Proof.
  eexists. split; [vm_compute; reflexivity|]. split; [|vm_compute; reflexivity].
  match goal with
  | |- ratio ?s = _ =>
      destruct (proj1 (from_dict_non_numeric_is_default
                         {[ "compressor_ratio" := PStr "8.0";
                            "compressor_threshold_db" := PFloat (f64_of_Z (-30)) ]}) s)
        as (_ & _ & Hratio & _)
  end.
  - vm_compute. reflexivity.
  - apply Hratio. vm_compute. exact I.
Defined.

(** X11. A NaN is not sanitised everywhere: under [compressor_ratio],
    [compressor_attack_ms] or [compressor_release_ms] it is replaced by
    1.0, but under the threshold and the three gain keys it is stored as
    it is. *)
Theorem from_dict_nan (data : gmap string pyval) (s : CompressorSettings spec_float) :
  compressor_settings_from_dict data = Ok s →
  (data !! "compressor_ratio" = Some (PFloat S754_nan) → ratio s = f64_of_Z 1) ∧
  (data !! "compressor_attack_ms" = Some (PFloat S754_nan) → attack_ms s = f64_of_Z 1) ∧
  (data !! "compressor_release_ms" = Some (PFloat S754_nan) → release_ms s = f64_of_Z 1) ∧
  (data !! "compressor_input_gain_db" = Some (PFloat S754_nan) →
     input_gain_db s = S754_nan) ∧
  (data !! "compressor_threshold_db" = Some (PFloat S754_nan) →
     threshold_db s = S754_nan) ∧
  (data !! "compressor_makeup_gain_db" = Some (PFloat S754_nan) →
     makeup_gain_db s = S754_nan) ∧
  (data !! "compressor_output_ceiling_db" = Some (PFloat S754_nan) →
     output_ceiling_db s = S754_nan).
Proof.
  unfold compressor_settings_from_dict.
  repeat (match goal with
          | |- bind ?r _ = Ok _ → _ => destruct r as [?|?] eqn:?; simpl; [|discriminate]
          end).
  intros [= <-]. cbn [ratio attack_ms release_ms input_gain_db threshold_db
                      makeup_gain_db output_ceiling_db].
  conjs; intros Hnan; rewrite Hnan in *; simpl in *; by simplify_eq.
Qed.

Lemma from_dict_nan_witness :
  ∃ s,
    compressor_settings_from_dict
      {[ "compressor_ratio" := PFloat S754_nan;
         "compressor_threshold_db" := PFloat S754_nan ]} = Ok s ∧
    ratio s = f64_of_Z 1 ∧ threshold_db s = S754_nan.
Proof.
  eexists. split; [vm_compute; reflexivity|].
  match goal with
  | |- ratio ?s = _ ∧ _ =>
      destruct (from_dict_nan
                  {[ "compressor_ratio" := PFloat S754_nan;
                     "compressor_threshold_db" := PFloat S754_nan ]} s)
        as (Hratio & _ & _ & _ & Hthreshold & _)
  end.
  - vm_compute. reflexivity.
  - split; [apply Hratio | apply Hthreshold]; vm_compute; reflexivity.
Defined.

(** ** The disk cache, continued *)

Section DiskCacheMore.
Implicit Types (self : Window) (sound_data : SoundItem.t) (signature name p : string).


Lemma remove_cache_file_keeps self name p :
  (ends_with ".wav" (lower name) = true →
   path_join (processed_cache_dir self) name = p →
   ∃ f, cache_files (world self) !! p = Some f ∧ locked f = true) →
  cache_files (world (remove_cache_file self name)) !! p = cache_files (world self) !! p.
Proof.
  intros Hkeep. unfold remove_cache_file, os_remove.
  destruct (ends_with ".wav" (lower name)) eqn:Hwav; [|done].
  destruct (decide (path_join (processed_cache_dir self) name = p)) as [Hp|Hp].
  - destruct (Hkeep eq_refl Hp) as (f & Hf & Hlocked). by rewrite Hp, Hf, Hlocked.
  - destruct (cache_files (world self) !! path_join (processed_cache_dir self) name)
      as [f|]; [|done].
    destruct (locked f); [done|]. simpl. by apply lookup_delete_ne.
Qed.

Lemma clear_loop_keeps (names : list string) self p :
  (∀ name, name ∈ names →
     ends_with ".wav" (lower name) = true →
     path_join (processed_cache_dir self) name = p →
     ∃ f, cache_files (world self) !! p = Some f ∧ locked f = true) →
  cache_files (world (fold_left remove_cache_file names self)) !! p =
    cache_files (world self) !! p.
Proof.
  revert self. induction names as [|n names IH]; intros self Hkeep; [done|].
  simpl.
  assert (cache_files (world (remove_cache_file self n)) !! p =
          cache_files (world self) !! p) as Hstep.
  { apply remove_cache_file_keeps. intros. apply (Hkeep n); [by left|done..]. }
  destruct (remove_cache_file_frame self n) as (_ & _ & Hdir & _).
  rewrite IH; [done|].
  intros name Hin Hwav Hp. rewrite Hstep. rewrite Hdir in Hp.
  apply (Hkeep name); [by right|done..].
Qed.

(** The names [os.listdir] gives are those of the files directly in the
    directory. *)
Lemma listdir_names self (names : list string) name :
  os_listdir (processed_cache_dir self) (world self) = Ok names →
  name ∈ names →
  ∃ f, cache_files (world self) !! path_join (processed_cache_dir self) name = Some f ∧
       entry_name (processed_cache_dir self)
         (path_join (processed_cache_dir self) name) = Some name.
Proof.
  unfold os_listdir. destruct (listdir_fails (world self)); [done|].
  intros [= <-] Hin. apply list_elem_of_omap in Hin as ([q f] & Hq & Hname).
  simpl in Hname. apply elem_of_map_to_list in Hq.
  rewrite (entry_name_join _ _ _ Hname). eauto.
Qed.

Lemma clear_disk_cache_keeps_if self p :
  (∀ names name,
     os_listdir (processed_cache_dir self) (world self) = Ok names →
     name ∈ names →
     ends_with ".wav" (lower name) = true →
     path_join (processed_cache_dir self) name = p →
     ∃ f, cache_files (world self) !! p = Some f ∧ locked f = true) →
  cache_files (world (_clear_disk_cache self)) !! p = cache_files (world self) !! p.
Proof.
  intros Hkeep. unfold _clear_disk_cache.
  destruct (os_listdir (processed_cache_dir self) (world self)) as [names|e] eqn:Hnames;
    [|done].
  apply clear_loop_keeps. intros name. by apply Hkeep.
Qed.

End DiskCacheMore.

(** X12. [_clear_disk_cache] takes nothing it should not: a file that is
    not directly in the cache directory, or whose name does not end in
    [.wav] (in any case), or that [os.remove] cannot remove, is still
    there afterwards; when the directory cannot be listed no file is
    removed at all. The settings and the memory cache are not touched. *)
Theorem clear_disk_cache_keeps (self : Window) (p : string) :
  let self' := _clear_disk_cache self in
  (listdir_fails (world self) = true →
     cache_files (world self') = cache_files (world self)) ∧
  (entry_name (processed_cache_dir self) p = None →
     cache_files (world self') !! p = cache_files (world self) !! p) ∧
  (∀ name, entry_name (processed_cache_dir self) p = Some name →
     ends_with ".wav" (lower name) = false →
     cache_files (world self') !! p = cache_files (world self) !! p) ∧
  (∀ f, cache_files (world self) !! p = Some f → locked f = true →
     cache_files (world self') !! p = Some f) ∧
  compressor_settings self' = compressor_settings self ∧
  processed_cache self' = processed_cache self.
Proof.
  intros self'.
  destruct (clear_disk_cache_frame self) as (Hsettings & Hcache & _ & _).
  conjs; try done.
  - intros Hfail. unfold self', _clear_disk_cache, os_listdir. by rewrite Hfail.
  - intros Hout. apply clear_disk_cache_keeps_if.
    intros names name Hnames Hin _ Hp.
    destruct (listdir_names self names name Hnames Hin) as (_ & _ & Hentry).
    rewrite Hp in Hentry. congruence.
  - intros name Hentry Hwav. apply clear_disk_cache_keeps_if.
    intros names name' Hnames Hin Hwav' Hp.
    destruct (listdir_names self names name' Hnames Hin) as (_ & _ & Hentry').
    rewrite Hp in Hentry'. congruence.
  - intros f Hf Hlocked. rewrite <-Hf. apply clear_disk_cache_keeps_if.
    intros names name Hnames Hin _ Hp. eauto.
Qed.

(** ** Playback, continued *)

(** Projections of a window through the setters. *)
Ltac win_simpl :=
  cbn [print log_error mixer_stop sound_play
       set_settings set_cache set_world set_cache_files set_settings_file set_console
       set_playing set_updating_ui set_opt_overlap set_opt_smart_mute
       compressor_settings processed_cache _compressor_updating_ui sound_index opt_overlap
       opt_smart_mute geometry_b64 processed_cache_dir world
       stat_table cache_files listdir_fails wave_write settings_open_fails settings_file
       console playing].

Section PlaybackFacts.
Variable pycaw_available : bool.
Variable volume : M unit.
Variable engine : Sound → CompressorSettings spec_float → result Sound.
Implicit Types (self : Window) (sound_key signature : string) (sound_data : SoundItem.t).

Lemma stopped_frame self :
  compressor_settings (stopped self) = compressor_settings self ∧
  processed_cache (stopped self) = processed_cache self ∧
  sound_index (stopped self) = sound_index self ∧
  processed_cache_dir (stopped self) = processed_cache_dir self ∧
  opt_overlap (stopped self) = opt_overlap self ∧
  opt_smart_mute (stopped self) = opt_smart_mute self ∧
  stat_table (world (stopped self)) = stat_table (world self) ∧
  cache_files (world (stopped self)) = cache_files (world self) ∧
  wave_write (world (stopped self)) = wave_write (world self) ∧
  console (world (stopped self)) = console (world self) ∧
  playing (world (stopped self)) = (if opt_overlap self then playing (world self) else []).
Proof. unfold stopped. destruct (opt_overlap self) eqn:Hoverlap; conjs; done. Qed.

(** Before the sound is chosen: the mixer is stopped unless overlap is
    on, and the system-volume block runs when smart mute is on and pycaw
    is there. *)
Lemma before_processing_quiet self :
  opt_smart_mute self && pycaw_available = false →
  before_processing (window_steps pycaw_available volume engine) self = (Ok tt, stopped self).
Proof.
  intros Hquiet. unfold before_processing, stopped, mbind, gets, modify, mret.
  cbn [window_steps PYCAW_AVAILABLE unmute_system_volume].
  destruct (opt_overlap self); win_simpl; by rewrite Hquiet.
Qed.



Lemma play_sound_known sound_key sound_data self :
  sound_index self !! sound_key = Some sound_data →
  play_sound pycaw_available volume engine sound_key self =
    match before_processing (window_steps pycaw_available volume engine) self with
    | (Ok _, self1) =>
        play_chosen (window_steps pycaw_available volume engine) sound_key sound_data self1
    | (Raise e, self1) => (Raise e, self1)
    end.
Proof.
  intros Hindex. unfold play_sound, play_sound_with, mbind at 1, gets at 1.
  rewrite Hindex. unfold mbind at 1.
  destruct (before_processing (window_steps pycaw_available volume engine) self) as [[[]|e] self1]; [|done].
  unfold play_chosen, mbind, modify.
  by destruct (sound_to_play _ _ _ _) as [[s|e] self'].
Qed.

Lemma sound_to_play_enabled sound_key sound_data self :
  enabled (compressor_settings self) = true →
  sound_to_play (window_steps pycaw_available volume engine) sound_key sound_data self =
    match processed_sound (window_steps pycaw_available volume engine) sound_key sound_data (_compressor_signature self) self with
    | (Ok s, self') => (Ok s, self')
    | (Raise e, self') =>
        (Ok (SoundItem.sound sound_data),
         log_error ("Compressor processing failed for " +:+ sound_key) e self')
    end.
Proof.
  intros Henabled. unfold sound_to_play, mbind at 1, gets at 1. rewrite Henabled.
  unfold mbind at 1, gets at 1, try_except.
  by destruct (processed_sound _ _ _ _ _) as [[s|e] self'].
Qed.




Lemma compressor_signature_frame self1 self2 :
  compressor_settings self1 = compressor_settings self2 →
  _compressor_signature self1 = _compressor_signature self2.
Proof. intros Hsettings. unfold _compressor_signature. by rewrite Hsettings. Qed.



(** A hit in the memory cache: nothing else of the chain runs. *)
Lemma processed_sound_hit sound_key sound_data signature self s :
  od_get (sound_key, signature) (_store (processed_cache self)) = Some s →
  processed_sound (window_steps pycaw_available volume engine) sound_key sound_data signature self =
    (Ok s,
     set_cache
       {| max_items := max_items (processed_cache self);
          _store := od_remove (sound_key, signature) (_store (processed_cache self)) ++
                    [((sound_key, signature), s)] |} self).
Proof.
  intros Hget. unfold processed_sound, mbind at 1. cbn [window_steps cache_get].
  unfold window_cache_get, get, od_move_to_end. by rewrite Hget.
Qed.



Lemma play_sound_quiet sound_key sound_data self :
  sound_index self !! sound_key = Some sound_data →
  opt_smart_mute self && pycaw_available = false →
  play_sound pycaw_available volume engine sound_key self =
    play_chosen (window_steps pycaw_available volume engine) sound_key sound_data
      (stopped self).
Proof.
  intros Hindex Hquiet.
  by rewrite (play_sound_known _ _ _ Hindex), before_processing_quiet.
Qed.

Lemma play_sound_enabled sound_key sound_data self :
  sound_index self !! sound_key = Some sound_data →
  opt_smart_mute self && pycaw_available = false →
  enabled (compressor_settings self) = true →
  play_sound pycaw_available volume engine sound_key self =
    match processed_sound (window_steps pycaw_available volume engine) sound_key sound_data
            (_compressor_signature self) (stopped self) with
    | (Ok s, self') => (Ok tt, sound_play s self')
    | (Raise e, self') =>
        (Ok tt,
         sound_play (SoundItem.sound sound_data)
           (log_error ("Compressor processing failed for " +:+ sound_key) e self'))
    end.
Proof.
  intros Hindex Hquiet Henabled.
  destruct (stopped_frame self) as (Hsettings & _).
  rewrite (play_sound_quiet _ _ _ Hindex Hquiet). unfold play_chosen.
  rewrite sound_to_play_enabled by (by rewrite Hsettings).
  rewrite (compressor_signature_frame (stopped self) self) by done.
  by destruct (processed_sound _ _ _ _ _) as [[s|e] self'].
Qed.

Lemma play_sound_hit sound_key sound_data self s :
  sound_index self !! sound_key = Some sound_data →
  opt_smart_mute self && pycaw_available = false →
  enabled (compressor_settings self) = true →
  od_get (sound_key, _compressor_signature self) (_store (processed_cache self)) = Some s →
  play_sound pycaw_available volume engine sound_key self =
    (Ok tt,
     sound_play s
       (set_cache
          {| max_items := max_items (processed_cache self);
             _store :=
               od_remove (sound_key, _compressor_signature self)
                 (_store (processed_cache self)) ++
               [((sound_key, _compressor_signature self), s)] |}
          (stopped self))).
Proof.
  intros Hindex Hquiet Henabled Hget.
  destruct (stopped_frame self) as (_ & Hcache & _).
  rewrite (play_sound_enabled _ _ _ Hindex Hquiet Henabled).
  rewrite (processed_sound_hit _ _ _ _ s) by (by rewrite Hcache).
  by rewrite Hcache.
Qed.

End PlaybackFacts.

Section PlaybackOutcomes.
Variable pycaw_available : bool.
Variable volume : M unit.
Implicit Types (self : Window) (sound_key signature : string) (sound_data : SoundItem.t).
Implicit Types (engine : Sound → CompressorSettings spec_float → result Sound).


End PlaybackOutcomes.


(** X15. A hit in the memory cache, with the system-volume block not
    running (smart mute off or pycaw missing): [play_sound] plays the
    cached sound without the engine (the result is the same for every
    engine, also one that raises), reads and writes no cache file, prints
    nothing, and makes the entry the most recently used one. *)
Theorem memory_hit_plays_cached (pycaw_available : bool) (volume : M unit)
    (engine : Sound → CompressorSettings spec_float → result Sound)
    (sound_key : string) (sound_data : SoundItem.t) (self : Window) (s : Sound) :
  sound_index self !! sound_key = Some sound_data →
  opt_smart_mute self && pycaw_available = false →
  enabled (compressor_settings self) = true →
  od_get (sound_key, _compressor_signature self) (_store (processed_cache self)) = Some s →
  let after := (play_sound pycaw_available volume engine sound_key self).2 in
  playing (world after) = (if opt_overlap self then playing (world self) else []) ++ [s] ∧
  cache_files (world after) = cache_files (world self) ∧
  console (world after) = console (world self) ∧
  max_items (processed_cache after) = max_items (processed_cache self) ∧
  _store (processed_cache after) =
    od_remove (sound_key, _compressor_signature self) (_store (processed_cache self)) ++
    [((sound_key, _compressor_signature self), s)].
Proof.
  intros Hindex Hquiet Henabled Hget after. unfold after.
  destruct (stopped_frame self)
    as (_ & _ & _ & _ & _ & _ & _ & Hfiles & _ & Hconsole & Hplaying).
  rewrite (play_sound_hit _ _ _ _ _ _ s Hindex Hquiet Henabled Hget).
  cbn [snd]. win_simpl. cbn [max_items _store]. conjs; try done.
  by rewrite Hplaying.
Qed.

Lemma memory_hit_plays_cached_witness :
  playing (world (play_sound true (λ self, (Raise TypeError, self))
                    (fun _ _ => Raise ValueError) "beep" busy_window).2) =
    playing (world busy_window) ++ [SoundItem.sound example_item].
Proof.
  refine (proj1 (memory_hit_plays_cached true (λ self, (Raise TypeError, self))
                   (fun _ _ => Raise ValueError) "beep"
                   example_item busy_window (SoundItem.sound example_item) _ _ _ _)).
  - vm_compute. reflexivity.
  - reflexivity.
  - reflexivity.
  - vm_compute. reflexivity.
Defined.







(** ** The life cycle of the settings *)

Section LifeCycleFacts.
Implicit Types (self : Window) (s : CompressorSettings spec_float).

(** [set_capacity] never raises: the capacity it sets is at least 1. *)
Lemma set_capacity_returns {K V : Type} `{EqDecision K} (n : Z)
    (c : ProcessedSoundCache K V) :
  set_capacity n c =
    Ok {| max_items := py_max_int 1 n; _store := newest (py_max_int 1 n) (_store c) |}.
Proof.
  unfold set_capacity. cbv zeta.
  rewrite evict_newest; [done|]. pose proof (py_max_int_valid 1 n). lia.
Qed.

(** What [save_settings] writes under the keys [load_settings] reads. *)
Lemma saved_lookups s (overlap smart_mute : bool) (geometry : string) key :
  let data : gmap string pyval :=
    compressor_settings_to_dict s ∪
    list_to_map
      [ ("overlap_audio", PBool overlap);
        ("smart_unmute_remute", PBool smart_mute);
        ("window_geometry_b64", PStr geometry) ] in
  data !! "overlap_audio" = Some (PBool overlap) ∧
  data !! "smart_unmute_remute" = Some (PBool smart_mute) ∧
  (key ∈ settings_keys → data !! key = compressor_settings_to_dict s !! key).
Proof.
  intros data. conjs; [vm_compute; reflexivity..|].
  unfold settings_keys. intros Hkey.
  repeat (apply elem_of_cons in Hkey as [->|Hkey]; [vm_compute; reflexivity|]).
  by apply elem_of_nil in Hkey.
Qed.

(** Clearing the disk cache does not change whether the settings file can
    be written. *)
Lemma remove_cache_file_settings_open self name :
  settings_open_fails (world (remove_cache_file self name)) =
    settings_open_fails (world self).
Proof.
  unfold remove_cache_file, os_remove.
  destruct (ends_with ".wav" (lower name)); [|done].
  destruct (cache_files (world self) !! path_join (processed_cache_dir self) name)
    as [f|]; [|done].
  by destruct (locked f).
Qed.

Lemma clear_disk_cache_settings_open self :
  settings_open_fails (world (_clear_disk_cache self)) = settings_open_fails (world self).
Proof.
  unfold _clear_disk_cache.
  destruct (os_listdir _ _) as [names|e]; [|done].
  revert self. induction names as [|n names IH]; intros self; [done|].
  simpl. by rewrite IH, remove_cache_file_settings_open.
Qed.

End LifeCycleFacts.

(** X19. [reset_compressor_defaults] returns on every window. It leaves
    the default settings with the revision counter back at 1 (whatever it
    was), an empty memory cache of capacity 32 and the UI flag cleared; it
    removes every removable [.wav] file of the cache directory; and, when
    the settings file can be written, the file it writes loads back to the
    settings of the window. *)
Theorem reset_restores_defaults (self : Window) :
  let after := reset_compressor_defaults self in
  after.1 = Ok tt ∧
  compressor_settings after.2 =
    mkCompressorSettings
      (enabled DEFAULT_COMPRESSOR_SETTINGS) (input_gain_db DEFAULT_COMPRESSOR_SETTINGS)
      (threshold_db DEFAULT_COMPRESSOR_SETTINGS) (ratio DEFAULT_COMPRESSOR_SETTINGS)
      (attack_ms DEFAULT_COMPRESSOR_SETTINGS) (release_ms DEFAULT_COMPRESSOR_SETTINGS)
      (makeup_gain_db DEFAULT_COMPRESSOR_SETTINGS)
      (output_ceiling_db DEFAULT_COMPRESSOR_SETTINGS) 32 1 ∧
  processed_cache after.2 = {| max_items := 32; _store := [] |} ∧
  _compressor_updating_ui after.2 = false ∧
  (∀ p name f,
     listdir_fails (world self) = false →
     entry_name (processed_cache_dir self) p = Some name →
     ends_with ".wav" (lower name) = true →
     cache_files (world self) !! p = Some f →
     locked f = false →
     cache_files (world after.2) !! p = None) ∧
  (settings_open_fails (world self) = false →
     ∃ data, settings_file (world after.2) = Some data ∧
             compressor_settings_from_dict data = Ok (compressor_settings after.2)).
Proof.
  intros after. unfold after, reset_compressor_defaults.
  replace (compressor_settings_from_dict
             (compressor_settings_to_dict DEFAULT_COMPRESSOR_SETTINGS))
    with (Ok DEFAULT_COMPRESSOR_SETTINGS) by (vm_compute; reflexivity).
  cbv zeta. rewrite set_capacity_returns. cbn [fst snd].
  set (self1 := _clear_processed_cache true _).
  assert (compressor_settings self1 =
          mkCompressorSettings
            (enabled DEFAULT_COMPRESSOR_SETTINGS) (input_gain_db DEFAULT_COMPRESSOR_SETTINGS)
            (threshold_db DEFAULT_COMPRESSOR_SETTINGS) (ratio DEFAULT_COMPRESSOR_SETTINGS)
            (attack_ms DEFAULT_COMPRESSOR_SETTINGS) (release_ms DEFAULT_COMPRESSOR_SETTINGS)
            (makeup_gain_db DEFAULT_COMPRESSOR_SETTINGS)
            (output_ceiling_db DEFAULT_COMPRESSOR_SETTINGS) 32 1) as Hsettings1
    by reflexivity.
  assert (processed_cache self1 = {| max_items := 32; _store := [] |}) as Hcache1
    by reflexivity.
  assert (processed_cache_dir self1 = processed_cache_dir self) as Hdir1 by reflexivity.
  assert (world self1 = world self) as Hworld1 by reflexivity.
  clearbody self1.
  destruct (clear_disk_cache_frame self1) as (Hsettings2 & Hcache2 & Hdir2 & _).
  assert (settings_open_fails (world (_clear_disk_cache self1)) =
          settings_open_fails (world self)) as Hopen2.
  { rewrite <-Hworld1. apply clear_disk_cache_settings_open. }
  set (self2 := _clear_disk_cache self1) in *.
  assert (∀ p name f,
            listdir_fails (world self) = false →
            entry_name (processed_cache_dir self) p = Some name →
            ends_with ".wav" (lower name) = true →
            cache_files (world self) !! p = Some f →
            locked f = false →
            cache_files (world self2) !! p = None) as Hremoved.
  { intros p name f Hlist Hname Hwav Hf Hunlocked.
    apply (clear_disk_cache_removes self1 p name f); by rewrite ?Hworld1, ?Hdir1. }
  clearbody self2.
  unfold _sync_compressor_controls, on_compressor_enabled_toggled. cbn [set_updating_ui
    _compressor_updating_ui]. cbv zeta.
  unfold save_settings. cbn [set_updating_ui world compressor_settings processed_cache
    opt_overlap opt_smart_mute geometry_b64].
  rewrite Hopen2.
  destruct (settings_open_fails (world self)) eqn:Hopen; win_simpl; cbn [set_updating_ui].
  - conjs; try congruence; try done.
  - conjs; try congruence; try done. intros _. eexists. split; [reflexivity|].
    rewrite Hsettings2, Hsettings1. vm_compute. reflexivity.
Qed.

(** X20. What [save_settings] writes, [load_settings] restores: on any
    window that reads the file written from settings within the
    invariants, [load_settings] returns and sets the same compressor
    settings and the same two options, and sets the capacity of the memory
    cache to [cache_max_items]; it changes nothing outside the window. *)
Theorem saved_settings_are_restored (self w : Window) :
  settings_valid (compressor_settings self) →
  0 ≤ revision (compressor_settings self) →
  settings_open_fails (world self) = false →
  settings_file (world w) = settings_file (world (save_settings self)) →
  let loaded := load_settings None w in
  loaded.1 = Ok tt ∧
  compressor_settings loaded.2 = compressor_settings self ∧
  opt_overlap loaded.2 = opt_overlap self ∧
  opt_smart_mute loaded.2 = opt_smart_mute self ∧
  max_items (processed_cache loaded.2) = cache_max_items (compressor_settings self) ∧
  world loaded.2 = world w.
Proof.
  intros Hvalid Hrev Hopen Hfile loaded. unfold loaded, load_settings.
  rewrite Hfile. unfold save_settings. rewrite Hopen. win_simpl.
  destruct (saved_lookups (compressor_settings self) (opt_overlap self)
              (opt_smart_mute self) (geometry_b64 self) "") as (-> & -> & _).
  rewrite (from_dict_ext _ (compressor_settings_to_dict (compressor_settings self)))
    by (intros key; apply saved_lookups).
  rewrite from_dict_to_dict by done. cbv zeta.
  rewrite set_capacity_returns. cbn [fst snd]. win_simpl.
  cbn [set_opt_overlap set_opt_smart_mute compressor_settings opt_overlap opt_smart_mute
       processed_cache world set_cache set_settings max_items].
  destruct Hvalid as (_ & _ & _ & Hitems).
  rewrite py_max_int_ge by done. conjs; reflexivity.
Qed.

Lemma saved_settings_are_restored_witness :
  compressor_settings (load_settings None (save_settings example_window)).2 =
    compressor_settings example_window.
Proof.
  refine (proj1 (proj2 (saved_settings_are_restored example_window
                          (save_settings example_window) _ _ _ _))).
  - unfold settings_valid. conjs; [vm_compute; reflexivity..|by vm_compute].
  - by vm_compute.
  - reflexivity.
  - reflexivity.
Defined.

(** X21. [load_settings] raises exactly when the settings file is there
    and either reading it raises an exception other than [OSError] and
    [json.JSONDecodeError] (a [UnicodeDecodeError], say), or the JSON text
    is not an object ([AttributeError]), or it holds a dictionary on which
    [compressor_settings_from_dict] raises; it then raises that exception
    and leaves the window as it was. A missing file, and a read that fails
    with [OSError] or [json.JSONDecodeError], never make it raise. *)
Theorem load_settings_raises_iff (problem : option read_problem) (self : Window) (e : exn) :
  ((load_settings problem self).1 = Raise e ↔
   ∃ data, settings_file (world self) = Some data ∧
           (problem = Some (ReadRaises e) ∧ read_handles e = false ∨
            problem = Some NotAnObject ∧ e = AttributeError ∨
            problem = None ∧ compressor_settings_from_dict data = Raise e)) ∧
  ((load_settings problem self).1 = Raise e → (load_settings problem self).2 = self).
Proof.
  unfold load_settings.
  destruct (settings_file (world self)) as [data|];
    [|cbn [fst snd]; split; [split|]; [done|by intros (? & ? & _)|done]].
  destruct problem as [[e'|]|].
  - destruct (read_handles e') eqn:Hhandled; cbn [fst snd]; (split; [split|]); try done.
    + intros (? & _ & [[[= <-] ?]|[[? _]|[? _]]]); congruence.
    + intros [= <-]. eauto 6.
    + intros (? & _ & [[[= <-] ?]|[[? _]|[? _]]]); congruence.
  - cbn [fst snd]. (split; [split|]); try done.
    + intros [= <-]. eauto 6.
    + intros (? & _ & [[? _]|[[_ ->]|[? _]]]); congruence.
  - destruct (compressor_settings_from_dict data) as [s|e'] eqn:Hload.
    + cbv zeta. rewrite set_capacity_returns. cbn [fst snd].
      (split; [split|]); try done.
      intros (? & [= <-] & [[? _]|[[? _]|[_ ?]]]); congruence.
    + cbn [fst snd]. (split; [split|]); try done.
      * intros [= <-]. eauto 7.
      * intros (? & [= <-] & [[? _]|[[? _]|[_ ?]]]); congruence.
Qed.

(** ** The chain *)

Section ChainShapes.
Local Open Scope R_scope.

Lemma row_peaks_single (f : R → R) (data : list R) :
  row_peaks (map (map f) (map (λ x, [x]) data)) = Ok (map Rabs (map f data)).
Proof.
  induction data as [|x data IH]; [done|].
  cbn [map row_peaks row_peak fold_left bind]. rewrite IH. done.
Qed.

Lemma map_map_single (h : R → R) (l : list R) :
  map (map h) (map (λ x, [x]) l) = map (λ x, [x]) (map h l).
Proof. induction l as [|x l IH]; [done|]. cbn [map]. by rewrite IH. Qed.

Lemma zip_rows_single (l gain : list R) :
  zip_with (λ row g, map (λ x, x * g) row) (map (λ x, [x]) l) gain =
    map (λ x, [x]) (zip_with Rmult l gain).
Proof.
  revert gain. induction l as [|x l IH]; intros [|g gain]; try done.
  cbn [map zip_with]. by rewrite IH.
Qed.

End ChainShapes.

(** X23. A mono array and the same samples as frames of one channel get
    the same treatment: [_apply_chain] raises the same exception on both
    or returns the same samples, in the shape it was given. *)
Theorem apply_chain_mono_as_frames (mixer_init : option Z) (data : list R)
    (settings : CompressorSettings R) :
  _apply_chain mixer_init (as_frames (Mono data)) settings =
    (let? out := _apply_chain mixer_init (Mono data) settings in Ok (as_frames out)).
Proof.
  unfold _apply_chain, as_frames. destruct mixer_init as [sample_rate|]; [|done].
  cbv zeta. rewrite row_peaks_single. cbn [bind].
  destruct (_compressor_gain _ sample_rate settings) as [gain|e]; [|done].
  cbn [bind]. by rewrite map_map_single, zip_rows_single, !map_map_single.
Qed.

(** ** The sample conversions, sample by sample *)

Section SampleFacts.

Lemma all_from_spec (f : Z → bool) (lo : Z) (n : nat) (x : Z) :
  all_from f lo n = true → lo ≤ x < lo + Z.of_nat n → f x = true.
Proof.
  revert lo. induction n as [|n IH]; intros lo; [lia|].
  cbn [all_from]. intros [Hlo Hrest]%andb_true_iff Hx.
  destruct (decide (x = lo)) as [->|Hne]; [done|].
  apply (IH (lo + 1)); [done | lia].
Qed.

(** Every signed 8-bit and 16-bit sample, and every unsigned 8-bit
    sample, checked by evaluation. *)
Lemma signed8_all : all_from (signed_sample_ok 8) (-128) (Z.to_nat 256) = true.
Proof. vm_cast_no_check (eq_refl true). Qed.

Lemma signed16_all : all_from (signed_sample_ok 16) (-32768) (Z.to_nat 65536) = true.
Proof. vm_cast_no_check (eq_refl true). Qed.

Lemma unsigned8_all : all_from unsigned_sample_ok 0 (Z.to_nat 256) = true.
Proof. vm_cast_no_check (eq_refl true). Qed.

Lemma signed_samples_ok (bits x : Z) :
  bits = 8 ∨ bits = 16 →
  iinfo_min (SInt bits) ≤ x ≤ iinfo_max (SInt bits) →
  signed_sample_ok bits x = true.
Proof.
  intros [-> | ->] Hx.
  - change (iinfo_min (SInt 8)) with (-128) in Hx.
    change (iinfo_max (SInt 8)) with 127 in Hx.
    apply (all_from_spec _ (-128) (Z.to_nat 256) x signed8_all). lia.
  - change (iinfo_min (SInt 16)) with (-32768) in Hx.
    change (iinfo_max (SInt 16)) with 32767 in Hx.
    apply (all_from_spec _ (-32768) (Z.to_nat 65536) x signed16_all). lia.
Qed.

Lemma signed_sample_ok_spec (bits x : Z) :
  signed_sample_ok bits x = true →
  SFleb (f32_of_Z (-1)) (signed_to_float bits x) = true ∧
  SFleb (signed_to_float bits x) (f32_of_Z 1) = true ∧
  float_to_signed bits (signed_to_float bits x) = Some (toward_zero x).
Proof.
  unfold signed_sample_ok. cbv zeta.
  intros [[Hlo Hhi]%andb_true_iff Hback]%andb_true_iff. conjs; [done..|].
  destruct (float_to_signed bits (signed_to_float bits x)) as [y|]; [|done].
  apply Z.eqb_eq in Hback. by subst.
Qed.

Lemma unsigned_sample_ok_spec (x : Z) :
  0 ≤ x ≤ 255 →
  SFleb (f32_of_Z (-1)) (unsigned_to_float 8 x) = true ∧
  SFleb (unsigned_to_float 8 x) (f32_of_Z 1) = true ∧
  float_to_unsigned 8 (unsigned_to_float 8 x) = Some (u8_back x).
Proof.
  intros Hx.
  assert (unsigned_sample_ok x = true) as Hok
    by (apply (all_from_spec _ 0 (Z.to_nat 256) x unsigned8_all); lia).
  revert Hok. unfold unsigned_sample_ok. cbv zeta.
  intros [[Hlo Hhi]%andb_true_iff Hback]%andb_true_iff. conjs; [done..|].
  destruct (float_to_unsigned 8 (unsigned_to_float 8 x)) as [y|]; [|done].
  apply Z.eqb_eq in Hback. by subst.
Qed.

Lemma mapM_map_pointwise {A B C : Type} (f : B → option C) (g : A → B) (h : A → C)
    (l : list A) :
  Forall (λ x, f (g x) = Some (h x)) l → mapM f (map g l) = Some (map h l).
Proof.
  induction 1 as [|x l Hx _ IH]; [done|]. simpl. by rewrite Hx, IH.
Qed.

Lemma toward_zero_fixed (x : Z) : toward_zero x = x ↔ x = 0.
Proof.
  unfold toward_zero. destruct (Z.eqb_spec x 0), (Z.ltb_spec 0 x); lia.
Qed.

Lemma map_toward_zero_fixed (arr : list Z) :
  map toward_zero arr = arr ↔ Forall (λ x, x = 0) arr.
Proof.
  induction arr as [|x arr IH]; [by split|]. cbn [map]. split.
  - intros [= Hx Harr]. constructor; [by apply toward_zero_fixed | by apply IH].
  - intros [Hx Harr]%Forall_cons. f_equal; [by apply toward_zero_fixed | by apply IH].
Qed.

End SampleFacts.

(** X24. Signed 8-bit and 16-bit audio through [_sound_to_float] and
    [_float_to_sound]: every sample is normalised to a value in [-1, 1],
    and comes back one step closer to zero (zero comes back as zero). So
    [process] with a chain that changes nothing lowers every non-zero
    sample by one step, and the round trip is the identity on silence
    only. *)
Theorem signed_roundtrip_toward_zero (bits : Z) (arr : list Z) :
  bits = 8 ∨ bits = 16 →
  Forall (λ x, iinfo_min (SInt bits) ≤ x ≤ iinfo_max (SInt bits)) arr →
  Forall (λ f, SFleb (f32_of_Z (-1)) f = true ∧ SFleb f (f32_of_Z 1) = true)
    (_sound_to_float (IntArray (SInt bits) arr)).1 ∧
  sound_roundtrip (IntArray (SInt bits) arr) =
    Some (IntArray (SInt bits) (map toward_zero arr)) ∧
  process_with (λ samples, Ok samples) (IntArray (SInt bits) arr) =
    Ok (Some (IntArray (SInt bits) (map toward_zero arr))) ∧
  (sound_roundtrip (IntArray (SInt bits) arr) = Some (IntArray (SInt bits) arr) ↔
   Forall (λ x, x = 0) arr).
Proof.
  intros Hbits Hrange.
  assert (Forall (λ x, signed_sample_ok bits x = true) arr) as Hok.
  { eapply Forall_impl; [exact Hrange|]. intros x. by apply signed_samples_ok. }
  assert (mapM (float_to_signed bits) (map (signed_to_float bits) arr) =
          Some (map toward_zero arr)) as Hback.
  { apply mapM_map_pointwise. eapply Forall_impl; [exact Hok|].
    intros x Hx. by apply signed_sample_ok_spec. }
  assert (sound_roundtrip (IntArray (SInt bits) arr) =
          Some (IntArray (SInt bits) (map toward_zero arr))) as Hround.
  { unfold sound_roundtrip, _sound_to_float, _float_to_sound. by rewrite Hback. }
  conjs.
  - cbn [_sound_to_float fst]. apply Forall_fmap. eapply Forall_impl; [exact Hok|].
    intros x Hx. cbn. by destruct (signed_sample_ok_spec bits x Hx) as (? & ? & _).
  - exact Hround.
  - unfold process_with, _sound_to_float. rewrite length_map.
    destruct arr as [|x arr]; [done|]. cbn [length Nat.eqb bind].
    unfold _float_to_sound. by rewrite Hback.
  - rewrite Hround. split.
    + intros [= Hfixed]. by apply map_toward_zero_fixed.
    + intros Hzero. do 2 f_equal. by apply map_toward_zero_fixed.
Qed.

Lemma signed_roundtrip_toward_zero_witness :
  sound_roundtrip (IntArray (SInt 16) [32767; 1; 0; -1; -32768]) =
    Some (IntArray (SInt 16) [32766; 0; 0; 0; -32767]).
Proof.
  refine (proj1 (proj2 (signed_roundtrip_toward_zero 16 [32767; 1; 0; -1; -32768] _ _))).
  - by right.
  - repeat constructor; by vm_compute.
Defined.

(** X25. Unsigned 8-bit audio through [_sound_to_float] and
    [_float_to_sound]: every sample is normalised to a value in [-1, 1];
    the samples 1 to 63 come back one lower, and every other sample comes
    back as it was. *)
Theorem unsigned8_roundtrip (arr : list Z) :
  Forall (λ x, 0 ≤ x ≤ 255) arr →
  Forall (λ f, SFleb (f32_of_Z (-1)) f = true ∧ SFleb f (f32_of_Z 1) = true)
    (_sound_to_float (IntArray (UInt 8) arr)).1 ∧
  sound_roundtrip (IntArray (UInt 8) arr) = Some (IntArray (UInt 8) (map u8_back arr)).
Proof.
  intros Hrange. split.
  - cbn [_sound_to_float fst]. apply Forall_fmap. eapply Forall_impl; [exact Hrange|].
    intros x Hx. cbn. by destruct (unsigned_sample_ok_spec x Hx) as (? & ? & _).
  - unfold sound_roundtrip, _sound_to_float, _float_to_sound.
    rewrite (mapM_map_pointwise _ _ u8_back); [done|].
    eapply Forall_impl; [exact Hrange|].
    intros x Hx. by destruct (unsigned_sample_ok_spec x Hx) as (_ & _ & ?).
Qed.

Lemma unsigned8_roundtrip_witness :
  sound_roundtrip (IntArray (UInt 8) [0; 1; 63; 64; 128; 255]) =
    Some (IntArray (UInt 8) [0; 0; 62; 64; 128; 255]).
Proof.
  refine (proj2 (unsigned8_roundtrip [0; 1; 63; 64; 128; 255] _)).
  repeat constructor; by vm_compute.
Defined.
